(** * openCodex proxy: the /v1/responses plugin and the health aggregate

    A shallow embedding of [src/plugins/v1-responses.ts] (request
    transformation, content normalisation, buffered and streamed forwarding),
    of the registry types of [src/plugins/base-plugin.ts] and of
    [checkUpstreamHealth] in [src/router.ts], with the properties the
    specification states about them. *)

From Stdlib Require Import List String Ascii ZArith Bool Lia PrimFloat DecimalString.
Import ListNotations.
Open Scope string_scope.

(* The literal 0.7 denotes the nearest double, as it does in JavaScript. *)
Set Warnings "-register-all,-inexact-float".

(** ** JavaScript values

    Request bodies are produced by [bodyParser.json], so the values of [any]
    typed fields are JSON documents.  Numbers are IEEE doubles, objects keep
    their properties in insertion order (each key once). *)

Inductive JsVal : Type :=
| JUndefined
| JNull
| JBool (b : bool)
| JNum (x : float)
| JStr (s : string)
| JArr (items : list JsVal)
| JObj (props : list (string * JsVal)).

(** ToBoolean: [undefined], [null], [false], [0], [-0], [NaN] and [""] are
    falsy, everything else (every array and object included) is truthy. *)
Definition truthy (v : JsVal) : bool :=
  match v with
  | JUndefined | JNull => false
  | JBool b => b
  | JNum x => negb (PrimFloat.is_zero x || PrimFloat.is_nan x)
  | JStr s => negb (s =? "")
  | JArr _ | JObj _ => true
  end.

(** [typeof v === 'string'] *)
Definition is_string (v : JsVal) : bool :=
  match v with JStr _ => true | _ => false end.

(** [v !== undefined] *)
Definition is_defined (v : JsVal) : bool :=
  match v with JUndefined => false | _ => true end.

(** [v === 'lit'] for a string literal *)
Definition is_literal (lit : string) (v : JsVal) : bool :=
  match v with JStr s => (s =? lit) | _ => false end.

(** Own property of an object literal; [undefined] when the key is absent. *)
Fixpoint lookup (k : string) (props : list (string * JsVal)) : JsVal :=
  match props with
  | [] => JUndefined
  | (k', v) :: rest => if (k' =? k) then v else lookup k rest
  end.

(** ** Exceptions *)

Record Error : Type := mkError { message : string }.

Inductive Completion (A : Type) : Type :=
| Return (a : A)
| Throw (e : Error).
Arguments Return {A} a.
Arguments Throw {A} e.

Definition bind {A B} (c : Completion A) (k : A -> Completion B) : Completion B :=
  match c with
  | Return a => k a
  | Throw e => Throw e
  end.

Declare Scope js_scope.
Delimit Scope js_scope with js.
Notation "x <- c ;; k" := (bind c (fun x => k))
  (at level 61, c at next level, right associativity) : js_scope.
Open Scope js_scope.

(** The property names the plugin reads from untyped values.  None of them is
    defined on [Array.prototype], [String.prototype], [Number.prototype],
    [Boolean.prototype] or [Object.prototype], so reading one from a value
    that is not [null] or [undefined] yields the own property or [undefined]. *)
Inductive PropName : Type := P_role | P_content | P_text | P_type.

Definition prop_key (p : PropName) : string :=
  match p with
  | P_role => "role"
  | P_content => "content"
  | P_text => "text"
  | P_type => "type"
  end.

(** [v.p]: a TypeError on [null] and [undefined] (message as V8 words it). *)
Definition get (v : JsVal) (p : PropName) : Completion JsVal :=
  match v with
  | JUndefined =>
      Throw (mkError ("Cannot read properties of undefined (reading '" ++ prop_key p ++ "')"))
  | JNull =>
      Throw (mkError ("Cannot read properties of null (reading '" ++ prop_key p ++ "')"))
  | JObj props => Return (lookup (prop_key p) props)
  | JBool _ | JNum _ | JStr _ | JArr _ => Return JUndefined
  end.

(** [Array.prototype.every] with a callback that may throw: stops at the
    first element the callback rejects. *)
Fixpoint every {A} (p : A -> Completion bool) (l : list A) : Completion bool :=
  match l with
  | [] => Return true
  | x :: xs => b <- p x ;; if b then every p xs else Return false
  end.

(** [Array.prototype.map] with a callback that may throw. *)
Fixpoint map_items {A B} (f : A -> Completion B) (l : list A) : Completion (list B) :=
  match l with
  | [] => Return []
  | x :: xs => y <- f x ;; ys <- map_items f xs ;; Return (y :: ys)
  end.

(** ** Content normaliser ([normalizeContent]) *)

(** The string literal ['\\n'] of the source: a backslash followed by [n]. *)
Definition joiner : string := String (ascii_of_nat 92) (String (ascii_of_nat 110) EmptyString).

(** [content.every(item => typeof item === 'string')] together with the
    strings themselves: [Some ss] exactly when every element is a string. *)
Fixpoint as_strings (l : list JsVal) : option (list string) :=
  match l with
  | [] => Some []
  | JStr s :: rest =>
      match as_strings rest with
      | Some ss => Some (s :: ss)
      | None => None
      end
  | _ :: _ => None
  end.

(** [item.type && (item.text !== undefined)] *)
Definition is_typed_block (item : JsVal) : Completion bool :=
  t <- get item P_type ;;
  if truthy t then (x <- get item P_text ;; Return (is_defined x))
  else Return false.

(** The [map] callback: [input_text] blocks become [{type: 'text', text}]. *)
Definition rewrite_block (item : JsVal) : Completion JsVal :=
  t <- get item P_type ;;
  if is_literal "input_text" t then
    x <- get item P_text ;;
    Return (JObj [("type", JStr "text"); ("text", x)])
  else Return item.

(** The result type [string | Array<any>].  What the runtime's
    [JSON.stringify] returns for a value is kept as [JsonText] of that
    value: the serialiser belongs to the runtime, not to the plugin. *)
Inductive Content : Type :=
| Text (s : string)
| Items (l : list JsVal)
| JsonText (v : JsVal).

Definition normalizeContent (content : JsVal) : Completion Content :=
  match content with
  | JStr s => Return (Text s)
  | JArr items =>
      match as_strings items with
      | Some ss => Return (Text (String.concat joiner ss))
      | None =>
          typed <- every is_typed_block items ;;
          if typed then
            blocks <- map_items rewrite_block items ;;
            Return (Items blocks)
          else Return (Items items)
      end
  | _ => Return (JsonText content)
  end.

(** ** Request transformer ([transformRequest]) *)

(** [OpenAIResponsesFormat]; optional typed fields are [option], [input] is
    [any] ([JUndefined] when absent), [extra] is the index signature
    [[key: string]: any]. *)
Module Responses.
Record t : Type := mk {
  model : string;
  instructions : option string;
  input : JsVal;
  stream : option bool;
  parallel_tool_calls : option bool;
  tools : option (list JsVal);
  extra : list (string * JsVal)
}.
End Responses.

Record Message : Type := mkMessage { role : JsVal; content : Content }.

(** [OpenAIChatFormat] as [transformRequest] fills it. *)
Module Chat.
Record t : Type := mk {
  model : string;
  messages : list Message;
  temperature : JsVal;
  max_tokens : JsVal;
  stream : bool;
  tools : option (list JsVal);
  parallel_tool_calls : option bool
}.
End Chat.

(** One round of the [for (const item of original.input)] loop: the message
    to push, if the guard [item.role && (item.content || item.text)] holds.
    The pushed object reads [item.role] and [item.content || item.text]
    again; reading twice gives the same values. *)
Definition convert_item (item : JsVal) : Completion (option Message) :=
  r <- get item P_role ;;
  if truthy r then
    c <- get item P_content ;;
    v <- (if truthy c then Return c else get item P_text) ;;
    if truthy v then
      n <- normalizeContent v ;;
      Return (Some (mkMessage r n))
    else Return None
  else Return None.

(** The loop itself, pushing onto [messages]. *)
Fixpoint push_items (items : list JsVal) (messages : list Message)
  : Completion (list Message) :=
  match items with
  | [] => Return messages
  | item :: rest =>
      m <- convert_item item ;;
      push_items rest (match m with Some msg => messages ++ [msg] | None => messages end)
  end.

(** [a || b] on an optional boolean, as the source writes it. *)
Definition or_else (a : option bool) (b : bool) : bool :=
  match a with
  | Some true => true
  | Some false | None => b
  end.

(** [a ?? b] on an optional boolean, as the specification writes it. *)
Definition coalesce (a : option bool) (b : bool) : bool :=
  match a with
  | Some x => x
  | None => b
  end.

Definition system_message (text : string) : Message :=
  mkMessage (JStr "system") (Text text).

(** [if (original.instructions) transformed.messages.push(...)] *)
Definition instruction_messages (original : Responses.t) : list Message :=
  match Responses.instructions original with
  | Some text => if truthy (JStr text) then [system_message text] else []
  | None => []
  end.

Definition transformRequest (original : Responses.t) : Completion Chat.t :=
  let messages0 := instruction_messages original in
  messages <-
    match Responses.input original with
    | JArr items => push_items items messages0
    | _ => Return messages0
    end ;;
  let tools :=
    match Responses.tools original with
    | Some (t :: ts) => Some (t :: ts)
    | _ => None
    end in
  let temperature := lookup "temperature" (Responses.extra original) in
  let max_tokens := lookup "max_tokens" (Responses.extra original) in
  Return (Chat.mk
    (Responses.model original)
    messages
    (if is_defined temperature then temperature else JNum 0.7%float)
    (if is_defined max_tokens then max_tokens else JNum (-1)%float)
    (or_else (Responses.stream original) false)
    tools
    (Responses.parallel_tool_calls original)).

(** ** The handler's world: response writer, logger, network

    [res] records, in order, the calls on the Express response that took
    effect; a call that throws leaves no record.  [log] records the logger
    calls (level and message; the metadata objects are not kept).  [net]
    records the requests passed to [fetch]. *)

Inductive ResCall : Type :=
| res_status (code : Z)
| res_json (body : JsVal)
| res_send (body : string)
| res_setHeader (name value : string)
| res_write (chunk : string)
| res_end.

Inductive Level : Type := Debug | Info | Warn | Err.

(** The arguments of one [fetch(url, init)] call.  [payload] is the object
    handed to [JSON.stringify] for the request body. *)
Module Fetch.
Record t : Type := mk {
  url : string;
  method : string;
  headers : list (string * string);
  payload : option Chat.t;
  timeout : option Z
}.
End Fetch.

Record World : Type := mkWorld {
  res : list ResCall;
  log : list (Level * string);
  net : list Fetch.t
}.

(** An [async] function body: it may write to the world and either returns
    or rejects. *)
Definition M (A : Type) : Type := World -> Completion A * World.

Definition ret {A} (a : A) : M A := fun w => (Return a, w).

Definition throw {A} (e : Error) : M A := fun w => (Throw e, w).

Definition mbind {A B} (m : M A) (k : A -> M B) : M B :=
  fun w =>
    match m w with
    | (Return a, w') => k a w'
    | (Throw e, w') => (Throw e, w')
    end.

(** [try { m } catch (error) { handler }] *)
Definition try_catch {A} (m : M A) (handler : Error -> M A) : M A :=
  fun w =>
    match m w with
    | (Return a, w') => (Return a, w')
    | (Throw e, w') => handler e w'
    end.

(** The settled value of an awaited promise. *)
Definition await {A} (c : Completion A) : M A := fun w => (c, w).

Notation "'let*' x ':=' c 'in' k" := (mbind c (fun x => k))
  (at level 10, x name, c at level 100, k at level 200).
Notation "c ';;;' k" := (mbind c (fun _ => k))
  (at level 100, k at level 200, right associativity).

(** *** The Express response

    The rules of Express 4 on Node's [http.ServerResponse] that decide
    whether a call of the plugin throws.  The header block goes on the wire
    with the first [write], [send], [json] or [end].  After that,
    [setHeader], [send] and [json] throw ERR_HTTP_HEADERS_SENT ([send] and
    [json] set [Content-Type] before they write).  Writing the header block
    throws ERR_HTTP_INVALID_STATUS_CODE when [res.statusCode] is outside
    100..999.  [res.status] only assigns [statusCode].  A [write] or [end]
    on a response that is already complete is dropped (Node reports it
    outside the caller). *)

Definition flushes (c : ResCall) : bool :=
  match c with
  | res_write _ | res_send _ | res_json _ | res_end => true
  | res_status _ | res_setHeader _ _ => false
  end.

(** [res.headersSent] *)
Definition headersSent (calls : list ResCall) : bool := existsb flushes calls.

(** [res.writableEnded]: the response was completed. *)
Definition writableEnded (calls : list ResCall) : bool :=
  existsb (fun c => match c with
                    | res_send _ | res_json _ | res_end => true
                    | res_status _ | res_setHeader _ _ | res_write _ => false
                    end) calls.

(** [res.statusCode]: 200 until [res.status] assigns it. *)
Definition statusCode (calls : list ResCall) : Z :=
  fold_left (fun code c => match c with res_status n => n | _ => code end) calls 200%Z.

Definition valid_status (code : Z) : bool := ((100 <=? code) && (code <=? 999))%Z.
Arguments valid_status : simpl never.

Definition ERR_HTTP_HEADERS_SENT : Error :=
  mkError "Cannot set headers after they are sent to the client".

Definition ERR_HTTP_INVALID_STATUS_CODE (code : Z) : Error :=
  mkError ("Invalid status code: " ++ NilZero.string_of_int (Z.to_int code)).

Definition call (c : ResCall) : M unit :=
  fun w =>
    let done := (Return tt, mkWorld (res w ++ [c]) (log w) (net w)) in
    let code := statusCode (res w) in
    match c with
    | res_status _ => done
    | res_setHeader _ _ =>
        if headersSent (res w) then (Throw ERR_HTTP_HEADERS_SENT, w) else done
    | res_json _ | res_send _ =>
        if headersSent (res w) then (Throw ERR_HTTP_HEADERS_SENT, w)
        else if valid_status code then done
        else (Throw (ERR_HTTP_INVALID_STATUS_CODE code), w)
    | res_write _ | res_end =>
        if writableEnded (res w) then (Return tt, w)
        else if headersSent (res w) || valid_status code then done
        else (Throw (ERR_HTTP_INVALID_STATUS_CODE code), w)
    end.

Definition logger (l : Level) (msg : string) : M unit :=
  fun w => (Return tt, mkWorld (res w) (log w ++ [(l, msg)]) (net w)).

(** ** The upstream, as [fetch] shows it *)

(** The body stream of a response: the chunks it yields, then its end or an
    error raised by the iterator. *)
Record BodyStream : Type := mkStream {
  chunks : list string;
  failure : option Error
}.

(** A [node-fetch] response: [text] and [json] are the settled outcomes of
    [response.text()] and [response.json()]; [body] is [None] for a null
    body. *)
Module Upstream.
Record t : Type := mk {
  ok : bool;
  status : Z;
  statusText : string;
  text : Completion string;
  json : Completion JsVal;
  body : option BodyStream
}.
End Upstream.

(** [config.upstream] and [config.timeouts] of [src/config.ts]. *)
Record UpstreamConfig : Type := mkUpstreamConfig {
  baseURL : string;
  apiKeyHeader : string;
  apiKeyValue : string;
  healthCheckPath : string
}.

Record ProxyConfig : Type := mkProxyConfig {
  upstream : UpstreamConfig;
  healthCheck : Z
}.

(** The Express request, as far as the plugin reads it. *)
Module Req.
Record t : Type := mk {
  method : string;
  path : string;
  body : Responses.t
}.
End Req.

(** [Plugin] of [src/plugins/base-plugin.ts]: [canHandle] is the match
    predicate, [handle] the handler and [checkHealth] the health check, both
    [async]. *)
Module Plugin.
Record t : Type := mk {
  name : string;
  canHandle : Req.t -> bool;
  handle : Req.t -> M bool;
  checkHealth : M bool
}.
End Plugin.

(** [PluginRegistry.findHandler] over the registered plugins, in
    registration order. *)
Definition findHandler (plugins : list Plugin.t) (req : Req.t) : option Plugin.t :=
  find (fun plugin => Plugin.canHandle plugin req) plugins.

(** How the plugin middleware of [src/router.ts] leaves a request: answered
    by a plugin, or passed to [next()], the generic proxy. *)
Inductive Routed : Type := Handled | PassedOn.

Definition plugin_middleware (plugins : list Plugin.t) (req : Req.t) : M Routed :=
  logger Debug (Req.method req ++ " " ++ Req.path req) ;;;
  match findHandler plugins req with
  | Some handler =>
      let* handled :=
        try_catch
          (Plugin.handle handler req)
          (fun error =>
             logger Err "Plugin error" ;;;
             logger Info "Falling back to generic proxy after plugin error" ;;;
             ret false) in
      if handled then ret Handled else ret PassedOn
  | None => ret PassedOn
  end.

(** [BasePlugin.canHandle]: [this.pathPattern.test(req.path) &&
    req.method === this.method], with the pattern given by the strings it
    accepts. *)
Definition canHandle (pathPattern : string -> bool) (method : string) (req : Req.t) : bool :=
  pathPattern (Req.path req) && (Req.method req =? method).

(** The pattern [/^\/v1\/responses$/] of the plugin: anchored at both ends
    and without flags, it accepts the string [/v1/responses] and no other. *)
Definition v1_pathPattern (path : string) : bool := (path =? "/v1/responses").

(** [PluginRegistry.register]: [this.plugins.push(plugin)]. *)
Definition register (plugins : list Plugin.t) (plugin : Plugin.t) : list Plugin.t :=
  plugins ++ [plugin].

Section Handlers.

(** The network: what [fetch] settles to for a given request. *)
Variable fetch : Fetch.t -> Completion Upstream.t.
Variable config : ProxyConfig.

Definition do_fetch (rq : Fetch.t) : M Upstream.t :=
  fun w => (fetch rq, mkWorld (res w) (log w) (net w ++ [rq])).

Definition authorization : string * string :=
  (apiKeyHeader (upstream config), "Bearer " ++ apiKeyValue (upstream config)).

(** The POST to [<baseURL>/chat/completions]; the streaming variant adds the
    [Accept] header. *)
Definition chat_request (accept : list (string * string)) (body : Chat.t) : Fetch.t :=
  Fetch.mk (baseURL (upstream config) ++ "/chat/completions")
           "POST"
           ([("Content-Type", "application/json"); authorization] ++ accept)
           (Some body)
           None.

(** The GET to [<baseURL><healthCheckPath>] ([fetch] defaults to GET). *)
Definition health_request : Fetch.t :=
  Fetch.mk (baseURL (upstream config) ++ healthCheckPath (upstream config))
           "GET"
           [authorization]
           None
           (Some (healthCheck config)).

Definition error_envelope (msg : string) : JsVal :=
  JObj [("error", JStr msg)].

(** The non-ok branch shared by both forwarding modes. *)
Definition relay_rejection (response : Upstream.t) : M bool :=
  logger Err "Upstream error" ;;;
  let* errorText := await (Upstream.text response) in
  logger Err "Upstream error detail" ;;;
  call (res_status (Upstream.status response)) ;;;
  call (res_send errorText) ;;;
  ret true.

Definition handleNonStreamingRequest (body : Chat.t) : M bool :=
  try_catch
    (let* response := do_fetch (chat_request [] body) in
     if negb (Upstream.ok response) then relay_rejection response
     else
       let* data := await (Upstream.json response) in
       call (res_json data) ;;;
       ret true)
    (fun error =>
       logger Err "Error forwarding request" ;;;
       call (res_status 502) ;;;
       call (res_json (error_envelope ("Error forwarding request: " ++ message error))) ;;;
       ret true).

(** [for await (const chunk of stream) res.write(chunk)] *)
Fixpoint write_chunks (cs : list string) : M unit :=
  match cs with
  | [] => ret tt
  | c :: rest => call (res_write c) ;;; write_chunks rest
  end.

Definition pipe (stream : BodyStream) : M unit :=
  write_chunks (chunks stream) ;;;
  match failure stream with
  | Some e => throw e
  | None => ret tt
  end.

Definition handleStreamingRequest (body : Chat.t) : M bool :=
  try_catch
    (let* response := do_fetch (chat_request [("Accept", "text/event-stream")] body) in
     if negb (Upstream.ok response) then relay_rejection response
     else
       call (res_setHeader "Content-Type" "text/event-stream") ;;;
       call (res_setHeader "Cache-Control" "no-cache") ;;;
       call (res_setHeader "Connection" "keep-alive") ;;;
       match Upstream.body response with
       | None =>
           call (res_status 502) ;;;
           call (res_json (error_envelope "No response stream from upstream")) ;;;
           ret true
       | Some stream =>
           pipe stream ;;;
           call res_end ;;;
           ret true
       end)
    (fun error =>
       logger Err "Error streaming response" ;;;
       call (res_status 502) ;;;
       call (res_json (error_envelope ("Error streaming response: " ++ message error))) ;;;
       ret true).

Definition proxy_error (msg : string) : JsVal :=
  JObj [("error", JObj [("message", JStr msg); ("type", JStr "proxy_error")])].

Definition handle (req : Req.t) : M bool :=
  try_catch
    (logger Debug ("Handling " ++ Req.method req ++ " request to " ++ Req.path req) ;;;
     let requestBody := Req.body req in
     let* transformedBody := await (transformRequest requestBody) in
     logger Debug "Transformed request body" ;;;
     match Responses.stream requestBody with
     | Some true => handleStreamingRequest transformedBody
     | _ => handleNonStreamingRequest transformedBody
     end)
    (fun error =>
       logger Err "Error handling request" ;;;
       call (res_status 500) ;;;
       call (res_json (proxy_error ("Error handling request: " ++ message error))) ;;;
       ret true).

(** ** Health aggregate ([checkUpstreamHealth] of [src/router.ts]) *)

(** One element of the [Promise.all]: a check that throws is logged and
    counts as [false].  The checks are started in registry order; each is
    run to its end before the next. *)
Definition plugin_health (plugin : Plugin.t) : M bool :=
  try_catch
    (Plugin.checkHealth plugin)
    (fun error =>
       logger Err ("Plugin " ++ Plugin.name plugin ++ " health check failed") ;;;
       ret false).

Fixpoint all_health (plugins : list Plugin.t) : M (list bool) :=
  match plugins with
  | [] => ret []
  | p :: rest =>
      let* b := plugin_health p in
      let* bs := all_health rest in
      ret (b :: bs)
  end.

Definition checkUpstreamHealth (enabledPlugins : list Plugin.t) : M bool :=
  match enabledPlugins with
  | [] =>
      try_catch
        (let* response := do_fetch health_request in
         ret (Upstream.ok response))
        (fun error =>
           logger Err "Basic upstream health check failed" ;;;
           ret false)
  | _ :: _ =>
      let* results := all_health enabledPlugins in
      ret (existsb (fun result => Bool.eqb result true) results)
  end.

(** ** The plugin's own health check ([V1ResponsesPlugin.checkHealth]) *)

Definition checkHealth : M bool :=
  try_catch
    (let* response := do_fetch health_request in
     ret (Upstream.ok response))
    (fun error =>
       logger Err "Health check failed" ;;;
       ret false).

(** The exported plugin instance. *)
Definition v1ResponsesPlugin : Plugin.t :=
  Plugin.mk "v1-responses" (canHandle v1_pathPattern "POST") handle checkHealth.

(** ** The [/healthz] route of [src/router.ts] *)

Definition health_ok (plugins : list Plugin.t) : JsVal :=
  JObj [("status", JStr "ok");
        ("upstream", JStr (baseURL (upstream config)));
        ("plugins", JArr (map (fun p => JStr (Plugin.name p)) plugins))].

Definition health_degraded : JsVal :=
  JObj [("status", JStr "degraded");
        ("upstream", JStr (baseURL (upstream config)));
        ("reason", JStr "Upstream server is not responding")].

Definition healthz (plugins : list Plugin.t) : M unit :=
  try_catch
    (let* upstreamHealth := checkUpstreamHealth plugins in
     if upstreamHealth then
       call (res_status 200) ;;;
       call (res_json (health_ok plugins))
     else
       call (res_status 503) ;;;
       call (res_json health_degraded))
    (fun error =>
       logger Err "Health check error" ;;;
       call (res_status 500) ;;;
       call (res_json (JObj [("status", JStr "error"); ("error", JStr (message error))]))).

End Handlers.

(** ** Configuration merge ([loadFromEnv] and [getConfig] of [src/config.ts])

    The [upstream] and [logging] groups of the merged configuration.
    [process.env] is a lookup of variable names.  An object is read by
    property name: [None] where it has no such property, [Some JUndefined]
    where it has one whose value is [undefined]; the order of its keys is
    not kept. *)

Definition Env : Type := string -> option string.

Definition Group : Type := string -> option JsVal.

Definition empty_group : Group := fun _ => None.

(** One property of an object literal with distinct keys. *)
Definition with_prop (k : string) (v : JsVal) (rest : Group) : Group :=
  fun name => if (name =? k) then Some v else rest name.

(** Object spread [{...target, ...source}]: every own property of [source]
    is copied over, one whose value is [undefined] included. *)
Definition spread (target source : Group) : Group :=
  fun name =>
    match source name with
    | Some v => Some v
    | None => target name
    end.

(** [s.replace(/\/$/, "")]: a slash at the very end of the string is removed. *)
Fixpoint strip_trailing_slash (s : string) : string :=
  match s with
  | EmptyString => EmptyString
  | String c EmptyString => if Ascii.eqb c "/" then EmptyString else s
  | String c rest => String c (strip_trailing_slash rest)
  end.

(** [v || undefined] for a variable that is a string or unset. *)
Definition or_undefined (v : option string) : JsVal :=
  match v with
  | Some s => if (s =? "") then JUndefined else JStr s
  | None => JUndefined
  end.

Definition defaultConfig_upstream : Group :=
  with_prop "baseURL" (JStr "http://localhost:1234/v1")
  (with_prop "apiKeyHeader" (JStr "Authorization")
  (with_prop "apiKeyValue" (JStr "")
  (with_prop "healthCheckPath" (JStr "/models") empty_group))).

Definition defaultConfig_logging : Group :=
  with_prop "level" (JStr "info") (with_prop "format" (JStr "pretty") empty_group).

(** The [upstream] and [logging] objects [loadFromEnv] builds: each has all
    of its keys, whatever the environment. *)
Definition loadFromEnv_upstream (env : Env) : Group :=
  with_prop "baseURL"
    (or_undefined (option_map strip_trailing_slash (env "OPENAI_UPSTREAM_BASE_URL")))
  (with_prop "apiKeyHeader" (or_undefined (env "OPENAI_API_KEY_HEADER"))
  (with_prop "apiKeyValue" (or_undefined (env "OPENAI_API_KEY"))
  (with_prop "healthCheckPath" (or_undefined (env "OPENAI_HEALTH_CHECK_PATH"))
   empty_group))).

Definition loadFromEnv_logging (env : Env) : Group :=
  with_prop "level" (or_undefined (env "LOG_LEVEL"))
  (with_prop "format" (or_undefined (env "LOG_FORMAT")) empty_group).

(** [{...default, ...(file || {}), ...(env || {})}]; the group of the file
    is [None] when the file has none. *)
Definition merge_group (default : Group) (file : option Group) (env : Group) : Group :=
  spread (spread (spread empty_group default)
                 (match file with Some group => group | None => empty_group end))
         env.

Definition getConfig_upstream (file : option Group) (env : Env) : Group :=
  merge_group defaultConfig_upstream file (loadFromEnv_upstream env).

Definition getConfig_logging (file : option Group) (env : Env) : Group :=
  merge_group defaultConfig_logging file (loadFromEnv_logging env).

(** An environment with only the upstream URL set, and a file group. *)
Definition url_env : Env :=
  fun name => if (name =? "OPENAI_UPSTREAM_BASE_URL") then Some "http://up/v1/" else None.

Definition file_upstream : Group :=
  with_prop "baseURL" (JStr "http://file/v1")
  (with_prop "apiKeyValue" (JStr "sk-file")
  (with_prop "organization" (JStr "org-1") empty_group)).

(** ** Vocabulary of the statements *)

(** [null] or [undefined]: the values a property cannot be read from. *)
Definition nullish (v : JsVal) : bool :=
  match v with JUndefined | JNull => true | _ => false end.

(** [Array.isArray(v)] *)
Definition is_array (v : JsVal) : bool :=
  match v with JArr _ => true | _ => false end.

(** [v.p] for a value that is not nullish. *)
Definition field (v : JsVal) (p : PropName) : JsVal :=
  match v with JObj props => lookup (prop_key p) props | _ => JUndefined end.

(** An element with a truthy [type] and a [text] that is not [undefined]. *)
Definition typed_block (item : JsVal) : bool :=
  truthy (field item P_type) && is_defined (field item P_text).

(** [item.content || item.text] *)
Definition chosen_content (item : JsVal) : JsVal :=
  if truthy (field item P_content) then field item P_content else field item P_text.

(** The guard of the input loop: [item.role && (item.content || item.text)]. *)
Definition accepted (item : JsVal) : bool :=
  truthy (field item P_role) && truthy (chosen_content item).

(** A sequence without [null] or [undefined] elements, or any other value. *)
Definition blocks_ok (v : JsVal) : bool :=
  match v with
  | JArr l => forallb (fun x => negb (nullish x)) l
  | _ => true
  end.

(** An input entry whose properties can be read and whose content, when it
    is a sequence, holds no [null]. *)
Definition entry_ok (item : JsVal) : bool :=
  negb (nullish item) && blocks_ok (chosen_content item).

(** The entries of [input] the loop runs over. *)
Definition input_items (original : Responses.t) : list JsVal :=
  match Responses.input original with JArr items => items | _ => [] end.

(** [m] is the message the loop pushes for [item]. *)
Definition message_of (item : JsVal) (m : Message) : Prop :=
  role m = field item P_role /\
  normalizeContent (chosen_content item) = Return (content m).

(** The README request: instructions and one user message. *)
Definition hello_item : JsVal :=
  JObj [("role", JStr "user"); ("content", JStr "Hello!")].

Definition hello_request : Responses.t :=
  Responses.mk "gpt-4" (Some "You are a helpful assistant.")
               (JArr [hello_item]) None None None [].

Definition user_hello : Message := mkMessage (JStr "user") (Text "Hello!").

(** A request with the given instructions and input and nothing else. *)
Definition request_of (instr : option string) (input : JsVal) : Responses.t :=
  Responses.mk "gpt-4" instr input None None None [].

(** The defaults of every field but [messages]. *)
Definition chat_of (messages : list Message) : Chat.t :=
  Chat.mk "gpt-4" messages (JNum 0.7%float) (JNum (-1)%float) false None None.

(** An entry with a role and an empty content, with and without [text]. *)
Definition blank_item : JsVal :=
  JObj [("role", JStr "user"); ("content", JStr "")].

Definition blank_item_with_text : JsVal :=
  JObj [("role", JStr "user"); ("content", JStr ""); ("text", JStr "hi")].

(** An entry whose content is a sequence holding [null]. *)
Definition null_block_item : JsVal :=
  JObj [("role", JStr "user"); ("content", JArr [JNull])].

(** The upstream of the contract tests: a 400 with a text body, and a
    transport failure. *)
Definition test_config : ProxyConfig :=
  mkProxyConfig
    (mkUpstreamConfig "http://localhost:1234/v1" "Authorization" "" "/models")
    5000.

Definition bad_request_response : Upstream.t :=
  Upstream.mk false 400 "Bad Request" (Return "Bad request")
              (Throw (mkError "Unexpected token B in JSON at position 0")) None.

Definition fetch_bad_request (rq : Fetch.t) : Completion Upstream.t :=
  Return bad_request_response.

Definition fetch_network_error (rq : Fetch.t) : Completion Upstream.t :=
  Throw (mkError "Network error").

Definition empty_world : World := mkWorld [] [] [].

(** The streaming upstream of the contract tests: two chunks, then the end. *)
Definition sse_stream : BodyStream :=
  mkStream ["data: {}"; "data: [DONE]"] None.

Definition fetch_stream (rq : Fetch.t) : Completion Upstream.t :=
  Return (Upstream.mk true 200 "OK" (Return "") (Return JNull) (Some sse_stream)).

Definition streaming_req : Req.t :=
  Req.mk "POST" "/v1/responses"
         (Responses.mk "gpt-4" None (JArr [hello_item]) (Some true) None None []).

(** Two registered plugins: one healthy, one whose check throws. *)
Definition healthy_plugin : Plugin.t :=
  Plugin.mk "healthy" (fun _ => false) (fun _ => ret false) (ret true).

Definition broken_plugin : Plugin.t :=
  Plugin.mk "broken" (fun _ => false) (fun _ => ret false)
            (throw (mkError "connect ECONNREFUSED")).

(** The README request with an explicit temperature of zero. *)
Definition cold_request : Responses.t :=
  Responses.mk "gpt-4" None (JArr [hello_item]) None None None
               [("temperature", JNum 0%float)].

(** What the [map] callback of the normaliser makes of a typed block. *)
Definition retyped (item : JsVal) : JsVal :=
  if is_literal "input_text" (field item P_type)
  then JObj [("type", JStr "text"); ("text", field item P_text)]
  else item.

(** The typed-block test reaches a [null] or [undefined] element: every
    element before it is a typed block. *)
Fixpoint reaches_null (l : list JsVal) : bool :=
  match l with
  | [] => false
  | x :: xs => nullish x || (typed_block x && reaches_null xs)
  end.

Definition content_raises (v : JsVal) : bool :=
  match v with
  | JArr l => reaches_null l
  | _ => false
  end.

(** An input entry on which the loop raises: the entry itself is [null] or
    [undefined], or it is accepted and its content raises. *)
Definition entry_raises (item : JsVal) : bool :=
  nullish item || (accepted item && content_raises (chosen_content item)).

(** The calls that complete an Express response. *)
Definition completes (c : ResCall) : bool :=
  match c with
  | res_json _ | res_send _ | res_end => true
  | res_status _ | res_setHeader _ _ | res_write _ => false
  end.

Definition sse_headers : list ResCall :=
  [res_setHeader "Content-Type" "text/event-stream";
   res_setHeader "Cache-Control" "no-cache";
   res_setHeader "Connection" "keep-alive"].

(** The [Accept] header of a streamed forward, none for a buffered one. *)
Definition accept_for (streaming : bool) : list (string * string) :=
  if streaming then [("Accept", "text/event-stream")] else [].

Definition wants_stream (original : Responses.t) : bool :=
  match Responses.stream original with
  | Some true => true
  | _ => false
  end.

(** The answer to a streamed forward is ok and its body yields at least one
    chunk and then fails. *)
Definition fails_midstream (answer : Completion Upstream.t) : bool :=
  match answer with
  | Return response =>
      Upstream.ok response &&
      match Upstream.body response with
      | Some stream =>
          match chunks stream, failure stream with
          | _ :: _, Some _ => true
          | _, _ => false
          end
      | None => false
      end
  | Throw _ => false
  end.

(** The request asks for a streamed forward, the transformation returns, and
    the answer to the forward (the POST to [<baseURL>/chat/completions] with
    the [Accept: text/event-stream] header) fails after a chunk. *)
Definition breaks_midstream (fetch : Fetch.t -> Completion Upstream.t)
    (config : ProxyConfig) (original : Responses.t) : bool :=
  match transformRequest original, Responses.stream original with
  | Return transformed, Some true =>
      fails_midstream
        (fetch (Fetch.mk (baseURL (upstream config) ++ "/chat/completions")
                         "POST"
                         [("Content-Type", "application/json");
                          (apiKeyHeader (upstream config),
                           "Bearer " ++ apiKeyValue (upstream config));
                          ("Accept", "text/event-stream")]
                         (Some transformed)
                         None))
  | _, _ => false
  end.

(** An [async] computation that makes no upstream call. *)
Definition keeps_net {A} (m : M A) : Prop :=
  forall w, net (snd (m w)) = net w.

(** The two stages of [handle], for the proofs: the forward it chooses and
    its [catch] block. *)
Definition forward (fetch : Fetch.t -> Completion Upstream.t) (config : ProxyConfig)
    (original : Responses.t) (transformed : Chat.t) : M bool :=
  match Responses.stream original with
  | Some true => handleStreamingRequest fetch config transformed
  | _ => handleNonStreamingRequest fetch config transformed
  end.

Definition handle_catch (error : Error) : M bool :=
  logger Err "Error handling request" ;;;
  call (res_status 500) ;;;
  call (res_json (proxy_error ("Error handling request: " ++ message error))) ;;;
  ret true.

(** Samples for the statements below. *)
Definition input_text_block : JsVal :=
  JObj [("type", JStr "input_text"); ("text", JStr "Test"); ("annotations", JArr [])].

Definition image_block : JsVal :=
  JObj [("type", JStr "input_image"); ("text", JStr ""); ("image_url", JStr "u")].

Definition broken_stream : BodyStream :=
  mkStream ["data: {}"] (Some (mkError "socket hang up")).

Definition ok_response (data : JsVal) (stream : option BodyStream) : Upstream.t :=
  Upstream.mk true 200 "OK" (Return "") (Return data) stream.

Definition fetch_ok (data : JsVal) (stream : option BodyStream) (rq : Fetch.t)
  : Completion Upstream.t :=
  Return (ok_response data stream).

Definition hello_req : Req.t :=
  Req.mk "POST" "/v1/responses" hello_request.

Definition other_req : Req.t :=
  Req.mk "GET" "/v1/models" hello_request.

Definition declining_plugin : Plugin.t :=
  Plugin.mk "declining" (fun _ => true) (fun _ => ret false) (ret true).

Definition crashing_plugin : Plugin.t :=
  Plugin.mk "crashing" (fun _ => true)
            (fun _ => call (res_write "partial") ;;; throw (mkError "boom"))
            (ret true).

(** ** Properties of the normaliser *)

Open Scope list_scope.

Lemma as_strings_map (ss : list string) : as_strings (map JStr ss) = Some ss.
Proof.
  induction ss as [|s ss IH]; simpl; [reflexivity|].
  now rewrite IH.
Qed.

Lemma as_strings_every (l : list JsVal) :
  (exists ss, as_strings l = Some ss) <-> forallb is_string l = true.
Proof.
  induction l as [|v l IH]; simpl.
  - split; [reflexivity | now exists []].
  - destruct v; simpl; try (split; [intros [ss H]; discriminate | discriminate]).
    rewrite <- IH. split.
    + intros [ss H]. destruct (as_strings l) as [ss'|]; [now exists ss' | discriminate].
    + intros [ss H]. rewrite H. now eexists.
Qed.

(** C6: a sequence whose elements are all strings is normalised to the
    elements joined by the two-character separator made of a backslash
    (character 92) and the letter n (character 110), which is not the line
    feed (character 10). *)
Theorem normalize_string_list (ss : list string) :
  normalizeContent (JArr (map JStr ss))
  = Return (Text (String.concat
                    (String (ascii_of_nat 92) (String (ascii_of_nat 110) EmptyString))
                    ss))
  /\ String (ascii_of_nat 92) (String (ascii_of_nat 110) EmptyString)
     <> String (ascii_of_nat 10) EmptyString.
Proof.
  split; [|discriminate].
  unfold normalizeContent. now rewrite as_strings_map.
Qed.


Lemma get_field (v : JsVal) (p : PropName) :
  nullish v = false -> get v p = Return (field v p).
Proof. destruct v; simpl; intros H; try discriminate; reflexivity. Qed.

Lemma is_typed_block_pure (item : JsVal) :
  nullish item = false -> is_typed_block item = Return (typed_block item).
Proof.
  intros H. unfold is_typed_block, typed_block.
  rewrite !(get_field _ _ H). simpl.
  destruct (truthy (field item P_type)); reflexivity.
Qed.

Lemma every_typed_block_pure (l : list JsVal) :
  forallb (fun x => negb (nullish x)) l = true ->
  every is_typed_block l = Return (forallb typed_block l).
Proof.
  induction l as [|x l IH]; simpl; [reflexivity|].
  intros H. apply andb_true_iff in H as [Hx Hl].
  apply negb_true_iff in Hx.
  rewrite (is_typed_block_pure _ Hx). simpl.
  destruct (typed_block x); simpl; [now apply IH | reflexivity].
Qed.

Lemma rewrite_block_returns (item : JsVal) :
  nullish item = false -> exists b, rewrite_block item = Return b.
Proof.
  intros H. unfold rewrite_block. rewrite !(get_field _ _ H). simpl.
  destruct (is_literal "input_text" (field item P_type)); eauto.
Qed.

Lemma map_rewrite_returns (l : list JsVal) :
  forallb (fun x => negb (nullish x)) l = true ->
  exists bs, map_items rewrite_block l = Return bs.
Proof.
  induction l as [|x l IH]; simpl; [eauto|].
  intros H. apply andb_true_iff in H as [Hx Hl].
  apply negb_true_iff in Hx.
  destruct (rewrite_block_returns _ Hx) as [b ->].
  destruct (IH Hl) as [bs ->]. simpl. eauto.
Qed.

(** On a value without [null] elements the normaliser returns. *)
Lemma normalizeContent_returns (v : JsVal) :
  blocks_ok v = true -> exists n, normalizeContent v = Return n.
Proof.
  destruct v; simpl; eauto.
  intros H. destruct (as_strings items); [eauto|].
  rewrite (every_typed_block_pure _ H). simpl.
  destruct (forallb typed_block items); [|eauto].
  destruct (map_rewrite_returns _ H) as [bs ->]. simpl. eauto.
Qed.

(** ** Properties of the transformer *)

Lemma convert_item_ok (item : JsVal) :
  entry_ok item = true ->
  (accepted item = true /\
   exists m, message_of item m /\ convert_item item = Return (Some m))
  \/ (accepted item = false /\ convert_item item = Return None).
Proof.
  unfold entry_ok. intros H. apply andb_true_iff in H as [Hn Hb].
  apply negb_true_iff in Hn.
  unfold convert_item, accepted.
  rewrite (get_field _ P_role Hn). simpl.
  destruct (truthy (field item P_role)) eqn:Hr; simpl; [|now right].
  rewrite (get_field _ P_content Hn). simpl.
  assert (Hv : (if truthy (field item P_content)
                then Return (field item P_content) else get item P_text)
               = Return (chosen_content item)).
  { unfold chosen_content. destruct (truthy (field item P_content)); [reflexivity|].
    apply get_field, Hn. }
  rewrite Hv. simpl.
  destruct (truthy (chosen_content item)) eqn:Hc; [|now right].
  left. split; [reflexivity|].
  destruct (normalizeContent_returns _ Hb) as [n Hnorm].
  exists (mkMessage (field item P_role) n). rewrite Hnorm. simpl.
  split; [split; [reflexivity | exact Hnorm] | reflexivity].
Qed.

Lemma push_items_ok (items : list JsVal) :
  forallb entry_ok items = true ->
  forall acc, exists ms,
    push_items items acc = Return (acc ++ ms)%list /\
    Forall2 message_of (filter accepted items) ms.
Proof.
  induction items as [|item items IH]; simpl; intros H acc.
  - exists []. rewrite app_nil_r. split; [reflexivity | constructor].
  - apply andb_true_iff in H as [Hi Hrest].
    destruct (convert_item_ok _ Hi) as [[Ha [m [Hm Hc]]] | [Ha Hc]];
      rewrite Hc, Ha; simpl.
    + destruct (IH Hrest (acc ++ [m])) as [ms [Hp Hf]].
      exists (m :: ms). rewrite Hp, <- app_assoc. simpl.
      split; [reflexivity | now constructor].
    + destruct (IH Hrest acc) as [ms [Hp Hf]]. exists ms. now split.
Qed.

(** On well-formed input the transformer returns, with the instruction
    message (if any) followed by the messages of the accepted entries. *)
Lemma transformRequest_returns (original : Responses.t) :
  forallb entry_ok (input_items original) = true ->
  exists out ms,
    transformRequest original = Return out /\
    Chat.messages out = (instruction_messages original ++ ms)%list /\
    Forall2 message_of (filter accepted (input_items original)) ms.
Proof.
  unfold transformRequest, input_items. intros H.
  destruct (Responses.input original);
    try (eexists; exists []; simpl; rewrite app_nil_r;
         split; [reflexivity | split; [reflexivity | constructor]]).
  destruct (push_items_ok _ H (instruction_messages original)) as [ms [Hp Hf]].
  rewrite Hp. simpl. eexists; exists ms.
  split; [reflexivity | split; [reflexivity | exact Hf]].
Qed.

Lemma push_items_extends (items : list JsVal) :
  forall acc ms, push_items items acc = Return ms -> exists tail, ms = acc ++ tail.
Proof.
  induction items as [|item items IH]; simpl; intros acc ms H.
  - injection H as <-. exists []. now rewrite app_nil_r.
  - destruct (convert_item item) as [[m|]|e]; simpl in H; try discriminate.
    + destruct (IH _ _ H) as [tail ->]. exists (m :: tail).
      now rewrite <- app_assoc.
    + now apply IH.
Qed.

Lemma transformRequest_messages (original : Responses.t) (out : Chat.t) :
  transformRequest original = Return out ->
  exists tail, Chat.messages out = instruction_messages original ++ tail.
Proof.
  unfold transformRequest. intros H.
  destruct (Responses.input original);
    try (simpl in H; injection H as <-; exists []; simpl; now rewrite app_nil_r).
  destruct (push_items items (instruction_messages original)) as [ms|e] eqn:Hp;
    simpl in H; [|discriminate].
  injection H as <-. simpl. exact (push_items_extends _ _ _ Hp).
Qed.


(** C1: the transformer is not total.  An [input] holding [null] makes the
    loop read [item.role] from [null], and a content sequence holding [null]
    makes the normaliser read [item.type] from [null]; both raise a
    TypeError instead of returning an outbound request. *)
Theorem null_entry_raises :
  transformRequest (request_of None (JArr [JNull]))
  = Throw (mkError "Cannot read properties of null (reading 'role')")
  /\ transformRequest (request_of None (JArr [null_block_item]))
     = Throw (mkError "Cannot read properties of null (reading 'type')").
Proof. split; reflexivity. Qed.

(** C2, as stated, fails: an entry that has a [role] and a [content] field is
    skipped when the content is the empty string, and when such an entry
    also has a [text], the message carries the text, not the content. *)
Lemma falsy_content_entry :
  is_defined (field blank_item P_role) = true
  /\ is_defined (field blank_item P_content) = true
  /\ transformRequest (request_of None (JArr [blank_item])) = Return (chat_of [])
  /\ transformRequest (request_of None (JArr [blank_item_with_text]))
     = Return (chat_of [mkMessage (JStr "user") (Text "hi")]).
Proof. repeat split. Qed.

(** C2, amended: when [input] is a sequence of entries none of which is
    [null] (nor holds [null] in a content sequence), the transformer returns,
    and after the instruction message its messages are, in the original
    order, those of exactly the entries whose [role] is truthy and whose
    [content || text] is truthy, each with the entry's role and the
    normalised [content || text]. *)
Theorem input_entries_to_messages (original : Responses.t) (items : list JsVal) :
  Responses.input original = JArr items ->
  forallb entry_ok items = true ->
  exists out ms,
    transformRequest original = Return out /\
    Chat.messages out = instruction_messages original ++ ms /\
    Forall2 message_of (filter accepted items) ms.
Proof.
  intros Hin Hok.
  assert (Hitems : input_items original = items)
    by (unfold input_items; now rewrite Hin).
  rewrite <- Hitems in *. now apply transformRequest_returns.
Qed.

Lemma input_entries_to_messages_witness :
  exists out ms,
    transformRequest hello_request = Return out /\
    Chat.messages out = instruction_messages hello_request ++ ms /\
    Forall2 message_of (filter accepted [hello_item]) ms.
Proof.
  apply (input_entries_to_messages hello_request [hello_item]); reflexivity.
Defined.


(** C4: in every result of the transformer, [stream] is
    [request.stream ?? false]; [temperature] and [max_tokens] are the
    request's value whenever that value is not [undefined] (zero included)
    and 0.7 and -1 otherwise; [parallel_tool_calls] is the request's. *)
Theorem scalar_fields (original : Responses.t) (out : Chat.t) :
  transformRequest original = Return out ->
  let temperature := lookup "temperature" (Responses.extra original) in
  let max_tokens := lookup "max_tokens" (Responses.extra original) in
  Chat.stream out = coalesce (Responses.stream original) false
  /\ (is_defined temperature = true -> Chat.temperature out = temperature)
  /\ (temperature = JUndefined -> Chat.temperature out = JNum 0.7%float)
  /\ (is_defined max_tokens = true -> Chat.max_tokens out = max_tokens)
  /\ (max_tokens = JUndefined -> Chat.max_tokens out = JNum (-1)%float)
  /\ Chat.parallel_tool_calls out = Responses.parallel_tool_calls original.
Proof.
  unfold transformRequest. intros H.
  destruct (match Responses.input original with
            | JArr items => push_items items (instruction_messages original)
            | _ => Return (instruction_messages original)
            end) as [ms|e]; simpl in H; [|discriminate].
  injection H as <-. simpl.
  repeat split.
  - now destruct (Responses.stream original) as [[|]|].
  - now intros ->.
  - now intros ->.
  - now intros ->.
  - now intros ->.
Qed.

Lemma scalar_fields_witness :
  Chat.stream (chat_of [user_hello]) = false
  /\ Chat.temperature
       (Chat.mk "gpt-4" [user_hello] (JNum 0%float) (JNum (-1)%float) false None None)
     = JNum 0%float.
Proof.
  split.
  - apply (scalar_fields (request_of None (JArr [hello_item])) (chat_of [user_hello])).
    reflexivity.
  - apply (scalar_fields cold_request
             (Chat.mk "gpt-4" [user_hello] (JNum 0%float) (JNum (-1)%float) false None None));
      reflexivity.
Defined.

(** C5, as stated, fails: a sequence of strings is neither a plain string nor
    a list of typed blocks, yet it is not passed through: it is joined. *)
Lemma string_list_not_passed_through :
  is_string (JArr [JStr "a"; JStr "b"]) = false
  /\ every is_typed_block [JStr "a"; JStr "b"] = Return false
  /\ normalizeContent (JArr [JStr "a"; JStr "b"])
     = Return (Text (String.concat joiner ["a"; "b"])).
Proof. repeat split. Qed.

(** C5, amended: a sequence without [null] elements that is neither all
    strings nor all typed blocks is returned unchanged, and a value that is
    neither a string nor a sequence is returned as its JSON text; in both
    cases the whole value is kept. *)
Theorem normalize_keeps_content :
  (forall l,
     forallb (fun x => negb (nullish x)) l = true ->
     forallb is_string l = false ->
     forallb typed_block l = false ->
     normalizeContent (JArr l) = Return (Items l))
  /\ (forall v,
        is_string v = false -> is_array v = false ->
        normalizeContent v = Return (JsonText v)).
Proof.
  split.
  - intros l Hn Hs Ht. unfold normalizeContent.
    destruct (as_strings l) as [ss|] eqn:Has.
    + assert (forallb is_string l = true) by (apply as_strings_every; eauto).
      congruence.
    + rewrite (every_typed_block_pure _ Hn), Ht. reflexivity.
  - intros v Hs Ha. destruct v; simpl in *; try discriminate; reflexivity.
Qed.

Lemma normalize_keeps_content_witness :
  normalizeContent (JArr [JStr "a"; JNum 1%float])
  = Return (Items [JStr "a"; JNum 1%float])
  /\ normalizeContent (JObj [("k", JBool true)])
     = Return (JsonText (JObj [("k", JBool true)])).
Proof.
  split.
  - apply (proj1 normalize_keeps_content); reflexivity.
  - apply (proj2 normalize_keeps_content); reflexivity.
Defined.

(** The scenarios of the contract tests. *)

Example transform_basic_request :
  transformRequest hello_request
  = Return (chat_of [system_message "You are a helpful assistant."; user_hello]).
Proof. reflexivity. Qed.

Example normalize_input_text :
  normalizeContent (JArr [JObj [("type", JStr "input_text"); ("text", JStr "X")]])
  = Return (Items [JObj [("type", JStr "text"); ("text", JStr "X")]]).
Proof. reflexivity. Qed.

(** ** More on the normaliser *)

Lemma typed_block_not_nullish (x : JsVal) :
  typed_block x = true -> nullish x = false.
Proof. destruct x; simpl; intros H; try reflexivity; discriminate. Qed.

Lemma as_strings_head (x : JsVal) (l : list JsVal) :
  is_string x = false -> as_strings (x :: l) = None.
Proof. destruct x; simpl; intros H; try reflexivity; discriminate. Qed.

Lemma typed_block_not_string (x : JsVal) :
  typed_block x = true -> is_string x = false.
Proof. destruct x; simpl; intros H; try reflexivity; discriminate. Qed.

Lemma rewrite_block_retyped (x : JsVal) :
  nullish x = false -> rewrite_block x = Return (retyped x).
Proof.
  intros H. unfold rewrite_block, retyped. rewrite !(get_field _ _ H). simpl.
  now destruct (is_literal "input_text" (field x P_type)).
Qed.

Lemma map_rewrite_retyped (l : list JsVal) :
  forallb typed_block l = true ->
  map_items rewrite_block l = Return (map retyped l).
Proof.
  induction l as [|x l IH]; simpl; [reflexivity|].
  intros H. apply andb_true_iff in H as [Hx Hl].
  rewrite (rewrite_block_retyped _ (typed_block_not_nullish _ Hx)). simpl.
  now rewrite (IH Hl).
Qed.

Lemma typed_no_null (l : list JsVal) :
  forallb typed_block l = true -> forallb (fun x => negb (nullish x)) l = true.
Proof.
  induction l as [|x l IH]; simpl; [reflexivity|].
  intros H. apply andb_true_iff in H as [Hx Hl].
  now rewrite (typed_block_not_nullish _ Hx), (IH Hl).
Qed.

(** A retyped block is again a typed block, is not an [input_text] block,
    and so is left alone by a second pass. *)
Lemma retyped_stable (x : JsVal) :
  typed_block x = true ->
  typed_block (retyped x) = true /\ retyped (retyped x) = retyped x.
Proof.
  intros H. unfold retyped.
  destruct (is_literal "input_text" (field x P_type)) eqn:Hlit.
  - unfold typed_block in *. apply andb_true_iff in H as [_ Hd].
    simpl. split; [exact Hd | reflexivity].
  - rewrite Hlit. now split.
Qed.

Lemma retyped_list_stable (l : list JsVal) :
  forallb typed_block l = true ->
  forallb typed_block (map retyped l) = true /\
  map retyped (map retyped l) = map retyped l.
Proof.
  induction l as [|x l IH]; simpl; [now split|].
  intros H. apply andb_true_iff in H as [Hx Hl].
  destruct (retyped_stable _ Hx) as [Ht He].
  destruct (IH Hl) as [Hts Hes].
  now rewrite Ht, He, Hts, Hes.
Qed.

Lemma normalize_typed (l : list JsVal) :
  l <> [] -> forallb typed_block l = true ->
  normalizeContent (JArr l) = Return (Items (map retyped l)).
Proof.
  intros Hne Ht. unfold normalizeContent.
  destruct l as [|x l]; [congruence|].
  pose proof Ht as Ht'. simpl in Ht'. apply andb_true_iff in Ht' as [Hx _].
  rewrite (as_strings_head _ _ (typed_block_not_string _ Hx)).
  rewrite (every_typed_block_pure _ (typed_no_null _ Ht)), Ht. cbn [bind].
  now rewrite (map_rewrite_retyped _ Ht).
Qed.

(** X1: a non-empty sequence whose every element has a truthy [type] and a
    [text] that is not [undefined] is normalised element by element, in
    order: an [input_text] block becomes [{type: "text", text}] (its other
    properties are dropped), every other block is kept as it is. *)
Theorem typed_blocks_rewritten (l : list JsVal) :
  l <> [] ->
  forallb typed_block l = true ->
  normalizeContent (JArr l) = Return (Items (map retyped l))
  /\ List.length (map retyped l) = List.length l
  /\ (forall props,
        In (JObj props) l ->
        lookup "type" props = JStr "input_text" ->
        In (JObj [("type", JStr "text"); ("text", lookup "text" props)]) (map retyped l))
  /\ (forall item,
        In item l -> is_literal "input_text" (field item P_type) = false ->
        In item (map retyped l)).
Proof.
  intros Hne Ht. split; [now apply normalize_typed|].
  split; [apply length_map|]. split.
  - intros props Hin Hty. apply in_map_iff. exists (JObj props). split; [|exact Hin].
    unfold retyped. simpl. now rewrite Hty.
  - intros item Hin Hlit. apply in_map_iff. exists item. split; [|exact Hin].
    unfold retyped. now rewrite Hlit.
Qed.

Lemma typed_blocks_rewritten_witness :
  normalizeContent (JArr [input_text_block; image_block])
  = Return (Items [JObj [("type", JStr "text"); ("text", JStr "Test")]; image_block]).
Proof.
  apply (typed_blocks_rewritten [input_text_block; image_block]);
    [discriminate | reflexivity].
Defined.

(** X2: normalising is idempotent on sequences: a sequence the normaliser
    returns is returned unchanged when normalised again. *)
Theorem normalize_sequence_idempotent (l bs : list JsVal) :
  normalizeContent (JArr l) = Return (Items bs) ->
  normalizeContent (JArr bs) = Return (Items bs).
Proof.
  intros H. pose proof H as H0. unfold normalizeContent in H.
  destruct (as_strings l) as [ss|] eqn:Hs; [discriminate|].
  destruct (every is_typed_block l) as [typed|e] eqn:He; simpl in H; [|discriminate].
  destruct typed.
  - assert (Hnn : forall k, every is_typed_block k = Return true ->
                            forallb typed_block k = true).
    { induction k as [|x k IH]; simpl; [reflexivity|].
      destruct x; simpl; try discriminate;
        unfold is_typed_block, typed_block; simpl;
        destruct (truthy (lookup "type" props)); simpl; try discriminate;
        destruct (is_defined (lookup "text" props)); simpl; try discriminate;
        exact IH. }
    pose proof (Hnn _ He) as Ht.
    rewrite (map_rewrite_retyped _ Ht) in H. simpl in H. injection H as <-.
    assert (Hne : l <> []) by (intros ->; discriminate).
    destruct (retyped_list_stable _ Ht) as [Hts Hes].
    rewrite normalize_typed; [now rewrite Hes | | exact Hts].
    destruct l; [congruence | discriminate].
  - injection H as <-. exact H0.
Qed.

Lemma normalize_sequence_idempotent_witness :
  normalizeContent (JArr [JObj [("type", JStr "text"); ("text", JStr "Test")]; image_block])
  = Return (Items [JObj [("type", JStr "text"); ("text", JStr "Test")]; image_block]).
Proof.
  apply (normalize_sequence_idempotent [input_text_block; image_block]).
  reflexivity.
Defined.

Lemma every_typed_raises (l : list JsVal) :
  (reaches_null l = true -> exists e, every is_typed_block l = Throw e)
  /\ (reaches_null l = false -> every is_typed_block l = Return (forallb typed_block l)).
Proof.
  induction l as [|x l [IHt IHf]]; simpl.
  - split; [discriminate | reflexivity].
  - destruct (nullish x) eqn:Hn; simpl.
    + split; [intros _ | discriminate].
      destruct x; try discriminate; simpl; eauto.
    + rewrite (is_typed_block_pure _ Hn). simpl.
      destruct (typed_block x); simpl; [now split|].
      split; [discriminate | reflexivity].
Qed.

Lemma reaches_null_prefix (l : list JsVal) :
  reaches_null l = true <->
  exists prefix x rest,
    l = prefix ++ x :: rest /\ nullish x = true /\ forallb typed_block prefix = true.
Proof.
  induction l as [|y l IH]; simpl.
  - split; [discriminate|]. intros [prefix [x [rest [H _]]]]. now destruct prefix.
  - rewrite orb_true_iff, andb_true_iff, IH. split.
    + intros [Hn | [Ht [prefix [x [rest [-> [Hx Hp]]]]]]].
      * exists [], y, l. now repeat split.
      * exists (y :: prefix), x, rest. simpl. rewrite Ht, Hp. now repeat split.
    + intros [prefix [x [rest [Heq [Hx Hp]]]]].
      destruct prefix as [|z prefix]; simpl in *.
      * injection Heq as -> ->. now left.
      * injection Heq as -> ->. apply andb_true_iff in Hp as [Hz Hp].
        right. split; [exact Hz|]. exists prefix, x, rest. now repeat split.
Qed.

Lemma normalize_raises_bool (v : JsVal) :
  (exists e, normalizeContent v = Throw e) <-> content_raises v = true.
Proof.
  destruct v; simpl; try (split; [intros [e H]; discriminate | discriminate]).
  destruct (every_typed_raises items) as [Ht Hf].
  destruct (reaches_null items) eqn:Hr.
  - split; [reflexivity | intros _].
    destruct (as_strings items) as [ss|] eqn:Hs.
    + exfalso. assert (Hall : forallb is_string items = true)
        by (apply as_strings_every; eauto).
      clear - Hall Hr. induction items as [|x l IH]; simpl in *; [discriminate|].
      apply andb_true_iff in Hall as [Hx Hl].
      destruct x; simpl in *; discriminate.
    + destruct (Ht eq_refl) as [e ->]. simpl. eauto.
  - split; [|discriminate]. intros [e H]. exfalso.
    destruct (as_strings items); [discriminate|].
    rewrite (Hf eq_refl) in H. simpl in H.
    destruct (forallb typed_block items) eqn:Hty; [|discriminate].
    rewrite (map_rewrite_retyped _ Hty) in H. discriminate.
Qed.

(** X3: the normaliser raises exactly on a sequence in which a [null] or
    [undefined] element is preceded by typed blocks only (by nothing, when it
    comes first); on every other value it returns. *)
Theorem normalize_raises_iff (v : JsVal) :
  (exists e, normalizeContent v = Throw e) <->
  exists prefix x rest,
    v = JArr (prefix ++ x :: rest) /\
    nullish x = true /\
    forallb typed_block prefix = true.
Proof.
  rewrite normalize_raises_bool. destruct v; simpl;
    try (split; [discriminate | intros [p [y [r [H _]]]]; discriminate]).
  rewrite reaches_null_prefix. split.
  - intros [p [y [r [-> H]]]]. now exists p, y, r.
  - intros [p [y [r [Heq H]]]]. injection Heq as ->. now exists p, y, r.
Qed.

(** ** More on the transformer *)

Lemma convert_item_cases (item : JsVal) :
  nullish item = false ->
  convert_item item =
  if accepted item
  then n <- normalizeContent (chosen_content item) ;;
       Return (Some (mkMessage (field item P_role) n))
  else Return None.
Proof.
  intros Hn. unfold convert_item, accepted.
  rewrite (get_field _ P_role Hn). simpl.
  destruct (truthy (field item P_role)); simpl; [|reflexivity].
  rewrite (get_field _ P_content Hn). simpl.
  replace (if truthy (field item P_content)
           then Return (field item P_content) else get item P_text)
    with (Return (A := JsVal) (chosen_content item)).
  - simpl. now destruct (truthy (chosen_content item)).
  - unfold chosen_content. destruct (truthy (field item P_content)); [reflexivity|].
    symmetry. apply get_field, Hn.
Qed.

Lemma convert_item_raises (item : JsVal) :
  (exists e, convert_item item = Throw e) <-> entry_raises item = true.
Proof.
  unfold entry_raises. destruct (nullish item) eqn:Hn; simpl.
  - split; [reflexivity | intros _].
    destruct item; try discriminate; unfold convert_item; simpl; eauto.
  - rewrite (convert_item_cases _ Hn). destruct (accepted item); simpl.
    + rewrite <- normalize_raises_bool. split.
      * intros [e H]. destruct (normalizeContent (chosen_content item)) as [n|e'];
          [discriminate | eauto].
      * intros [e ->]. simpl. eauto.
    + split; [intros [e H]; discriminate | discriminate].
Qed.

Lemma push_items_raises (items : list JsVal) :
  forall acc,
    (exists e, push_items items acc = Throw e) <-> existsb entry_raises items = true.
Proof.
  induction items as [|item items IH]; intros acc; simpl.
  - split; [intros [e H]; discriminate | discriminate].
  - rewrite orb_true_iff, <- convert_item_raises.
    destruct (convert_item item) as [m|e] eqn:Hc; simpl.
    + rewrite IH. split; [now right|]. intros [[e H] | H]; [discriminate | exact H].
    + split; [intros _; left; eauto | intros _; eauto].
Qed.

(** X4: the transformer raises exactly when some entry of the [input]
    sequence is [null] or [undefined], or passes the guard with a content on
    which the normaliser raises; it returns on every other request (any
    request whose [input] is absent or not a sequence included). *)
Theorem transform_raises_iff (original : Responses.t) :
  (exists e, transformRequest original = Throw e) <->
  existsb entry_raises (input_items original) = true.
Proof.
  unfold transformRequest, input_items.
  destruct (Responses.input original);
    try (simpl; split; [intros [e H]; discriminate | discriminate]).
  rewrite <- (push_items_raises items (instruction_messages original)).
  destruct (push_items items (instruction_messages original)) as [ms|e]; simpl.
  - split; intros [e H]; discriminate.
  - split; intros _; eauto.
Qed.

Lemma push_items_sound (items : list JsVal) :
  forall acc r,
    push_items items acc = Return r ->
    exists ms, r = acc ++ ms /\ Forall2 message_of (filter accepted items) ms.
Proof.
  induction items as [|item items IH]; simpl; intros acc r H.
  - injection H as <-. exists []. rewrite app_nil_r. split; [reflexivity | constructor].
  - destruct (nullish item) eqn:Hn.
    + destruct item; discriminate.
    + rewrite (convert_item_cases _ Hn) in H.
      destruct (accepted item); simpl in H.
      * destruct (normalizeContent (chosen_content item)) as [n|e] eqn:Hnorm;
          simpl in H; [|discriminate].
        destruct (IH _ _ H) as [ms [-> Hf]].
        exists (mkMessage (field item P_role) n :: ms).
        rewrite <- app_assoc. split; [reflexivity|].
        constructor; [now split | exact Hf].
      * now apply IH.
Qed.

(** X5: whatever the request, a result of the transformer holds the
    instruction message (if any) followed by one message per entry that
    passes the guard [role && (content || text)], in input order, and no
    other message; so it never holds more messages than the input has
    entries, plus one. *)
Theorem transform_messages_exact (original : Responses.t) (out : Chat.t) :
  transformRequest original = Return out ->
  exists ms,
    Chat.messages out = instruction_messages original ++ ms /\
    Forall2 message_of (filter accepted (input_items original)) ms /\
    List.length (Chat.messages out) <= 1 + List.length (input_items original).
Proof.
  unfold transformRequest, input_items. intros H.
  assert (Hi : List.length (instruction_messages original) <= 1).
  { unfold instruction_messages. destruct (Responses.instructions original) as [t|];
      [destruct (truthy (JStr t))|]; simpl; lia. }
  destruct (Responses.input original);
    try (simpl in H; injection H as <-; exists []; simpl; rewrite app_nil_r;
         split; [reflexivity | split; [constructor | simpl; lia]]).
  destruct (push_items items (instruction_messages original)) as [r|e] eqn:Hp;
    simpl in H; [|discriminate].
  injection H as <-. simpl.
  destruct (push_items_sound _ _ _ Hp) as [ms [-> Hf]].
  exists ms. split; [reflexivity | split; [exact Hf|]].
  rewrite length_app, <- (Forall2_length Hf).
  pose proof (filter_length_le accepted items). lia.
Qed.

Lemma transform_messages_exact_witness :
  exists ms,
    Chat.messages (chat_of [system_message "You are a helpful assistant."; user_hello])
    = instruction_messages hello_request ++ ms /\
    Forall2 message_of (filter accepted (input_items hello_request)) ms /\
    List.length (Chat.messages (chat_of [system_message "You are a helpful assistant."; user_hello]))
    <= 1 + List.length (input_items hello_request).
Proof.
  apply (transform_messages_exact hello_request
           (chat_of [system_message "You are a helpful assistant."; user_hello])).
  reflexivity.
Defined.

(** X6: in every result of the transformer the model is the request's, and
    [tools] is present exactly when the request's [tools] is a non-empty
    list, which is then copied unchanged; an empty list is not forwarded. *)
Theorem tools_and_model (original : Responses.t) (out : Chat.t) :
  transformRequest original = Return out ->
  Chat.model out = Responses.model original
  /\ (forall ts, Chat.tools out = Some ts <->
                 Responses.tools original = Some ts /\ ts <> [])
  /\ (Chat.tools out = None <->
      Responses.tools original = None \/ Responses.tools original = Some []).
Proof.
  unfold transformRequest. intros H.
  destruct (match Responses.input original with
            | JArr items => push_items items (instruction_messages original)
            | _ => Return (instruction_messages original)
            end) as [ms|e]; simpl in H; [|discriminate].
  injection H as <-. simpl. split; [reflexivity|].
  destruct (Responses.tools original) as [[|t ts]|]; split.
  - intros ts. split; [discriminate | intros [H Hne]; now injection H as <-].
  - split; [now right | reflexivity].
  - intros ts'. split; [intros H; split; [exact H | injection H as <-; discriminate]
                       | now intros [H _]].
  - split; [discriminate | intros [H | H]; discriminate].
  - intros ts. split; [discriminate | intros [H _]; discriminate].
  - split; [now left | reflexivity].
Qed.

Lemma tools_and_model_witness :
  Chat.model (chat_of [user_hello]) = "gpt-4"
  /\ (forall ts, Chat.tools (chat_of [user_hello]) = Some ts <->
                 Responses.tools (Responses.mk "gpt-4" None (JArr [hello_item]) None None (Some []) [])
                 = Some ts /\ ts <> [])
  /\ (Chat.tools (chat_of [user_hello]) = None <->
      Responses.tools (Responses.mk "gpt-4" None (JArr [hello_item]) None None (Some []) []) = None
      \/ Responses.tools (Responses.mk "gpt-4" None (JArr [hello_item]) None None (Some []) [])
         = Some []).
Proof.
  apply (tools_and_model
           (Responses.mk "gpt-4" None (JArr [hello_item]) None None (Some []) [])
           (chat_of [user_hello])).
  reflexivity.
Defined.

(** ** The registry and the router *)

(** X12: registering a plugin never changes the handler of a request that
    already had one; the new plugin gets the requests it can handle and no
    earlier plugin could. *)
Theorem register_priority (plugins : list Plugin.t) (plugin : Plugin.t) (req : Req.t) :
  findHandler (register plugins plugin) req =
  match findHandler plugins req with
  | Some handler => Some handler
  | None => if Plugin.canHandle plugin req then Some plugin else None
  end.
Proof.
  unfold findHandler, register.
  induction plugins as [|p ps IH]; simpl.
  - reflexivity.
  - destruct (Plugin.canHandle p req); [reflexivity | exact IH].
Qed.

(** X13: [findHandler] returns a plugin exactly when that plugin is
    registered, can handle the request, and no plugin registered before it
    can; it returns nothing exactly when no registered plugin can handle the
    request. *)
Theorem findHandler_first_match (plugins : list Plugin.t) (req : Req.t) :
  (forall handler,
     findHandler plugins req = Some handler <->
     exists before after,
       plugins = before ++ handler :: after /\
       Plugin.canHandle handler req = true /\
       forallb (fun p => negb (Plugin.canHandle p req)) before = true)
  /\ (findHandler plugins req = None <->
      forallb (fun p => negb (Plugin.canHandle p req)) plugins = true).
Proof.
  unfold findHandler. induction plugins as [|p ps [IHs IHn]]; simpl.
  - split.
    + intros handler. split; [discriminate|].
      intros [before [after [H _]]]. now destruct before.
    + now split.
  - destruct (Plugin.canHandle p req) eqn:Hp; simpl.
    + split.
      * intros handler. split.
        -- intros H. injection H as <-. exists [], ps. now repeat split.
        -- intros [before [after [Heq [Hc Hb]]]].
           destruct before as [|q before]; simpl in *.
           ++ now injection Heq as ->.
           ++ injection Heq as -> _. rewrite Hp in Hb. discriminate.
      * split; discriminate.
    + split; [|exact IHn].
      intros handler. rewrite IHs. split.
      * intros [before [after [-> [Hc Hb]]]].
        exists (p :: before), after. simpl. rewrite Hp. now repeat split.
      * intros [before [after [Heq [Hc Hb]]]].
        destruct before as [|q before]; simpl in *.
        -- injection Heq as -> _. congruence.
        -- injection Heq as -> ->. exists before, after.
           rewrite Hp in Hb. now repeat split.
Qed.

(** X14: the plugin middleware never rejects.  It leaves the request as
    handled exactly when a matching plugin was found and its [handle]
    resolved to [true]; when no plugin matches it passes the request on
    without touching the response or the network; when the plugin's [handle]
    rejects it passes the request on, keeping whatever the plugin had already
    written to the response. *)
Theorem middleware_outcome (plugins : list Plugin.t) (req : Req.t) (w : World) :
  let entered := snd (logger Debug (Req.method req ++ " " ++ Req.path req)%string w) in
  exists routed w',
    plugin_middleware plugins req w = (Return routed, w') /\
    (routed = Handled <->
     exists handler,
       findHandler plugins req = Some handler /\
       fst (Plugin.handle handler req entered) = Return true) /\
    (findHandler plugins req = None -> res w' = res w /\ net w' = net w) /\
    (forall handler e crashed,
       findHandler plugins req = Some handler ->
       Plugin.handle handler req entered = (Throw e, crashed) ->
       routed = PassedOn /\ res w' = res crashed).
Proof.
  intros entered. subst entered.
  unfold plugin_middleware, mbind, try_catch, logger, ret. simpl.
  destruct (findHandler plugins req) as [handler|] eqn:Hfind.
  - destruct (Plugin.handle handler req _) as [[[|]|e] w1] eqn:Hh; simpl;
      eexists; eexists; (split; [reflexivity|]);
      (split; [|split; [discriminate|]]).
    + split; [|reflexivity]. intros _. exists handler.
      split; [reflexivity | now rewrite Hh].
    + intros h err crashed Hs Hc. injection Hs as <-. rewrite Hh in Hc. discriminate.
    + split; [discriminate|]. intros [h [Hs Ht]].
      injection Hs as <-. rewrite Hh in Ht. discriminate.
    + intros h err crashed Hs Hc. injection Hs as <-. rewrite Hh in Hc. discriminate.
    + split; [discriminate|]. intros [h [Hs Ht]].
      injection Hs as <-. rewrite Hh in Ht. discriminate.
    + intros h err crashed Hs Hc. injection Hs as <-. rewrite Hh in Hc.
      injection Hc as _ <-. now split.
  - eexists; eexists. split; [reflexivity|].
    split; [|split; [now split | discriminate]].
    split; [discriminate|]. intros [h [Hs _]]. discriminate.
Qed.


(** ** The instruction message *)






(** ** The response writer *)

Lemma valid_status_range (code : Z) :
  (100 <= code <= 999)%Z -> valid_status code = true.
Proof.
  intros [Hlo Hhi]. unfold valid_status.
  apply andb_true_iff. split; now apply Z.leb_le.
Qed.

Lemma invalid_status_range (code : Z) :
  (code < 100 \/ 999 < code)%Z -> valid_status code = false.
Proof.
  intros H. unfold valid_status. apply andb_false_iff.
  destruct H as [H | H]; [left | right]; apply Z.leb_gt; exact H.
Qed.

Lemma headersSent_writes (l : list ResCall) (cs : list string) :
  headersSent (l ++ map res_write cs)
  = headersSent l || negb (match cs with [] => true | _ :: _ => false end).
Proof.
  unfold headersSent. rewrite existsb_app.
  destruct cs; simpl; [reflexivity | now rewrite orb_true_r].
Qed.

Lemma writableEnded_writes (l : list ResCall) (cs : list string) :
  writableEnded (l ++ map res_write cs) = writableEnded l.
Proof.
  unfold writableEnded. rewrite existsb_app.
  induction cs as [|c cs IH]; simpl; [apply orb_false_r | exact IH].
Qed.

Lemma statusCode_writes (l : list ResCall) (cs : list string) :
  statusCode (l ++ map res_write cs) = statusCode l.
Proof.
  unfold statusCode. rewrite fold_left_app.
  generalize (fold_left (fun code c => match c with res_status n => n | _ => code end) l 200%Z).
  induction cs as [|c cs IH]; intros code; simpl; [reflexivity | apply IH].
Qed.

Lemma no_completion_in_writes (cs : list string) :
  filter completes (map res_write cs) = [].
Proof. induction cs as [|c cs IH]; simpl; [reflexivity | exact IH]. Qed.

(** On a response that is not complete and whose header block is out or can
    go out, every chunk is written. *)
Lemma write_chunks_trace (cs : list string) :
  forall w,
    writableEnded (res w) = false ->
    headersSent (res w) || valid_status (statusCode (res w)) = true ->
    write_chunks cs w
    = (Return tt, mkWorld (res w ++ map res_write cs) (log w) (net w)).
Proof.
  induction cs as [|c cs IH]; intros w He Hs; simpl.
  - unfold ret. rewrite app_nil_r. now destruct w.
  - unfold mbind, call. rewrite He, Hs. rewrite IH; simpl.
    + now rewrite <- app_assoc.
    + unfold writableEnded in *. rewrite existsb_app, He. reflexivity.
    + unfold headersSent. rewrite existsb_app. simpl. now rewrite orb_true_r.
Qed.

(** ** Properties of the handlers *)

Section HandlerProperties.

Variable fetch : Fetch.t -> Completion Upstream.t.
Variable config : ProxyConfig.

(** C7: in buffered mode, on a response nothing was written to yet, an
    upstream answer with a non-success status [s] and body text [t] is
    relayed by [res.status(s).send(t)], and a transport failure of [fetch]
    with message [m] is answered by [res.status(502).json({error: "Error
    forwarding request: " + m})]; the handler resolves to [true] in both
    cases. *)
Theorem buffered_forward_failures (body : Chat.t) (w : World) :
  res w = [] ->
  let rq :=
    Fetch.mk (baseURL (upstream config) ++ "/chat/completions")%string
             "POST"
             [("Content-Type", "application/json");
              (apiKeyHeader (upstream config),
               ("Bearer " ++ apiKeyValue (upstream config))%string)]
             (Some body)
             None in
  (forall response errorText,
     fetch rq = Return response ->
     Upstream.ok response = false ->
     (100 <= Upstream.status response <= 999)%Z ->
     Upstream.text response = Return errorText ->
     fst (handleNonStreamingRequest fetch config body w) = Return true /\
     res (snd (handleNonStreamingRequest fetch config body w))
     = [res_status (Upstream.status response); res_send errorText])
  /\ (forall e,
        fetch rq = Throw e ->
        fst (handleNonStreamingRequest fetch config body w) = Return true /\
        res (snd (handleNonStreamingRequest fetch config body w))
        = [res_status 502;
           res_json (JObj [("error",
                            JStr ("Error forwarding request: " ++ message e)%string)])]).
Proof.
  intros Hfresh rq. destruct w as [r l n]. simpl in Hfresh. subst r.
  assert (Hrq : chat_request config [] body = rq) by reflexivity.
  split.
  - intros response errorText Hf Hok Hs Ht.
    unfold handleNonStreamingRequest, try_catch, mbind, do_fetch.
    rewrite Hrq, Hf. simpl. rewrite Hok. simpl.
    unfold relay_rejection, mbind, await, logger, call, ret. simpl.
    rewrite Ht. unfold statusCode. simpl.
    rewrite (valid_status_range _ Hs). simpl. now split.
  - intros e Hf.
    unfold handleNonStreamingRequest, try_catch, mbind, do_fetch.
    rewrite Hrq, Hf. simpl. now split.
Qed.

(** X9: a buffered forward, on a response nothing was written to yet, to an
    upstream that answers.  An ok answer whose body parses to [data] is
    answered with [res.json(data)] and no status call.  An ok answer whose
    body does not parse, and a non-ok answer whose text cannot be read, are
    answered 502 with [{error: "Error forwarding request: " + m}].  A non-ok
    answer whose status is outside 100..999 cannot be relayed: it is
    answered 502 with the message of Node's invalid-status error.  The
    handler resolves to [true] in every case. *)
Theorem buffered_forward_bodies (body : Chat.t) (w : World) (response : Upstream.t) :
  res w = [] ->
  fetch (Fetch.mk (baseURL (upstream config) ++ "/chat/completions")%string
                  "POST"
                  [("Content-Type", "application/json");
                   (apiKeyHeader (upstream config),
                    ("Bearer " ++ apiKeyValue (upstream config))%string)]
                  (Some body)
                  None) = Return response ->
  (forall data,
     Upstream.ok response = true -> Upstream.json response = Return data ->
     fst (handleNonStreamingRequest fetch config body w) = Return true /\
     res (snd (handleNonStreamingRequest fetch config body w)) = [res_json data])
  /\ (forall e,
        Upstream.ok response = true -> Upstream.json response = Throw e ->
        fst (handleNonStreamingRequest fetch config body w) = Return true /\
        res (snd (handleNonStreamingRequest fetch config body w))
        = [res_status 502;
           res_json (JObj [("error",
                            JStr ("Error forwarding request: " ++ message e)%string)])])
  /\ (forall e,
        Upstream.ok response = false -> Upstream.text response = Throw e ->
        fst (handleNonStreamingRequest fetch config body w) = Return true /\
        res (snd (handleNonStreamingRequest fetch config body w))
        = [res_status 502;
           res_json (JObj [("error",
                            JStr ("Error forwarding request: " ++ message e)%string)])])
  /\ (forall errorText,
        Upstream.ok response = false -> Upstream.text response = Return errorText ->
        (Upstream.status response < 100 \/ 999 < Upstream.status response)%Z ->
        fst (handleNonStreamingRequest fetch config body w) = Return true /\
        res (snd (handleNonStreamingRequest fetch config body w))
        = [res_status (Upstream.status response);
           res_status 502;
           res_json
             (JObj [("error",
                     JStr ("Error forwarding request: Invalid status code: "
                           ++ NilZero.string_of_int (Z.to_int (Upstream.status response)))%string)])]).
Proof.
  intros Hfresh Hf. destruct w as [r l n]. simpl in Hfresh. subst r.
  assert (Hf' : fetch (chat_request config [] body) = Return response) by exact Hf.
  unfold handleNonStreamingRequest, try_catch, mbind, do_fetch.
  rewrite Hf'. simpl.
  split; [|split; [|split]].
  - intros data Hok Hj. rewrite Hok. simpl. unfold await, call, ret. simpl.
    rewrite Hj. simpl. now split.
  - intros e Hok Hj. rewrite Hok. simpl. unfold await, call, ret. simpl.
    rewrite Hj. now split.
  - intros e Hok Ht. rewrite Hok. simpl.
    unfold relay_rejection, mbind, await, logger, call, ret. simpl.
    rewrite Ht. now split.
  - intros errorText Hok Ht Hs. rewrite Hok. simpl.
    unfold relay_rejection, mbind, await, logger, call, ret. simpl.
    rewrite Ht. unfold statusCode. simpl.
    rewrite (invalid_status_range _ Hs). now split.
Qed.

Lemma pipe_trace (stream : BodyStream) (w : World) :
  writableEnded (res w) = false ->
  headersSent (res w) || valid_status (statusCode (res w)) = true ->
  pipe stream w
  = (match failure stream with Some e => Throw e | None => Return tt end,
     mkWorld (res w ++ map res_write (chunks stream)) (log w) (net w)).
Proof.
  intros He Hs. unfold pipe, mbind. rewrite (write_chunks_trace _ _ He Hs).
  now destruct (failure stream).
Qed.

(** X7: a streamed forward, on a response nothing was written to yet, to an
    upstream that answers ok with a body.  The three event-stream headers
    are set and every chunk the body yields is written, in order.  If the
    body ends, [res.end()] is called once and the handler resolves to
    [true].  If the body fails with message [m] before any chunk, the answer
    is 502 with [{error: "Error streaming response: " + m}] and the handler
    resolves to [true].  If it fails after a chunk, [res.status(502)] is
    assigned but [res.json] throws because the header block is out: the
    handler rejects with that error, and neither [json] nor [end] takes
    effect. *)
Theorem streaming_relay_trace
    (body : Chat.t) (w : World) (response : Upstream.t) (stream : BodyStream) :
  res w = [] ->
  fetch (Fetch.mk (baseURL (upstream config) ++ "/chat/completions")%string
                  "POST"
                  [("Content-Type", "application/json");
                   (apiKeyHeader (upstream config),
                    ("Bearer " ++ apiKeyValue (upstream config))%string);
                   ("Accept", "text/event-stream")]
                  (Some body)
                  None) = Return response ->
  Upstream.ok response = true ->
  Upstream.body response = Some stream ->
  let headers :=
    [res_setHeader "Content-Type" "text/event-stream";
     res_setHeader "Cache-Control" "no-cache";
     res_setHeader "Connection" "keep-alive"] in
  let outcome := fst (handleStreamingRequest fetch config body w) in
  let calls := res (snd (handleStreamingRequest fetch config body w)) in
  (failure stream = None ->
   outcome = Return true /\
   calls = headers ++ map res_write (chunks stream) ++ [res_end])
  /\ (forall e,
        failure stream = Some e -> chunks stream = [] ->
        outcome = Return true /\
        calls = headers ++
                [res_status 502;
                 res_json (JObj [("error",
                                  JStr ("Error streaming response: " ++ message e)%string)])])
  /\ (forall e,
        failure stream = Some e -> chunks stream <> [] ->
        outcome = Throw (mkError "Cannot set headers after they are sent to the client") /\
        calls = headers ++ map res_write (chunks stream) ++ [res_status 502]).
Proof.
  intros Hfresh Hf Hok Hb headers outcome calls. subst headers outcome calls.
  destruct w as [r l n]. simpl in Hfresh. subst r.
  assert (Hf' : fetch (chat_request config [("Accept", "text/event-stream")] body)
                = Return response) by exact Hf.
  unfold handleStreamingRequest, try_catch, mbind, do_fetch.
  rewrite Hf'. simpl. rewrite Hok, Hb. simpl.
  rewrite pipe_trace by reflexivity. simpl.
  split; [|split].
  - intros Hnone. rewrite Hnone.
    assert (Hwe : writableEnded (map res_write (chunks stream)) = false)
      by apply (writableEnded_writes []).
    assert (Hsc : statusCode
                    (res_setHeader "Content-Type" "text/event-stream"
                     :: res_setHeader "Cache-Control" "no-cache"
                     :: res_setHeader "Connection" "keep-alive"
                     :: map res_write (chunks stream)) = 200%Z)
      by exact (statusCode_writes
                  [res_setHeader "Content-Type" "text/event-stream";
                   res_setHeader "Cache-Control" "no-cache";
                   res_setHeader "Connection" "keep-alive"] (chunks stream)).
    rewrite Hwe, Hsc. rewrite orb_true_r. simpl. now split.
  - intros e He Hc. rewrite He, Hc. simpl. now split.
  - intros e He Hc. rewrite He.
    destruct (chunks stream) as [|c cs]; [congruence|]. simpl.
    now split.
Qed.

(** X8: the failures of a streamed forward, on a response nothing was
    written to yet.  A transport failure with message [m] is answered 502
    with [{error: "Error streaming response: " + m}]; a non-ok upstream
    answer with a status in 100..999 is relayed with its status and text,
    and no event-stream header is set; an ok answer without a body is
    answered 502 with [{error: "No response stream from upstream"}] after the
    three headers.  The handler resolves to [true] in all three. *)
Theorem streaming_forward_failures (body : Chat.t) (w : World) :
  res w = [] ->
  let rq :=
    Fetch.mk (baseURL (upstream config) ++ "/chat/completions")%string
             "POST"
             [("Content-Type", "application/json");
              (apiKeyHeader (upstream config),
               ("Bearer " ++ apiKeyValue (upstream config))%string);
              ("Accept", "text/event-stream")]
             (Some body)
             None in
  let outcome := fst (handleStreamingRequest fetch config body w) in
  let calls := res (snd (handleStreamingRequest fetch config body w)) in
  (forall e,
     fetch rq = Throw e ->
     outcome = Return true /\
     calls = [res_status 502;
              res_json (JObj [("error",
                               JStr ("Error streaming response: " ++ message e)%string)])])
  /\ (forall response errorText,
        fetch rq = Return response ->
        Upstream.ok response = false ->
        (100 <= Upstream.status response <= 999)%Z ->
        Upstream.text response = Return errorText ->
        outcome = Return true /\
        calls = [res_status (Upstream.status response); res_send errorText])
  /\ (forall response,
        fetch rq = Return response ->
        Upstream.ok response = true ->
        Upstream.body response = None ->
        outcome = Return true /\
        calls = [res_setHeader "Content-Type" "text/event-stream";
                 res_setHeader "Cache-Control" "no-cache";
                 res_setHeader "Connection" "keep-alive";
                 res_status 502;
                 res_json (JObj [("error", JStr "No response stream from upstream")])]).
Proof.
  intros Hfresh rq outcome calls. subst outcome calls.
  destruct w as [r l n]. simpl in Hfresh. subst r.
  assert (Hrq : chat_request config [("Accept", "text/event-stream")] body = rq)
    by reflexivity.
  unfold handleStreamingRequest, try_catch, mbind, do_fetch. rewrite Hrq.
  split; [|split].
  - intros e Hf. rewrite Hf. simpl. now split.
  - intros response errorText Hf Hok Hs Ht. rewrite Hf. simpl. rewrite Hok. simpl.
    unfold relay_rejection, mbind, await, logger, call, ret. simpl.
    rewrite Ht. unfold statusCode. simpl.
    rewrite (valid_status_range _ Hs). simpl. now split.
  - intros response Hf Hok Hb. rewrite Hf. simpl. rewrite Hok, Hb. simpl.
    now split.
Qed.

Lemma keeps_net_ret {A} (a : A) : keeps_net (ret a).
Proof. intros w. reflexivity. Qed.

Lemma keeps_net_throw {A} (e : Error) : keeps_net (throw (A := A) e).
Proof. intros w. reflexivity. Qed.

Lemma keeps_net_await {A} (c : Completion A) : keeps_net (await c).
Proof. intros w. reflexivity. Qed.

Lemma keeps_net_logger (l : Level) (msg : string) : keeps_net (logger l msg).
Proof. intros w. reflexivity. Qed.

Lemma keeps_net_call (c : ResCall) : keeps_net (call c).
Proof.
  intros w. unfold call.
  destruct c; simpl;
    repeat match goal with |- context [if ?b then _ else _] => destruct b end;
    reflexivity.
Qed.

Lemma keeps_net_bind {A B} (m : M A) (k : A -> M B) :
  keeps_net m -> (forall a, keeps_net (k a)) -> keeps_net (mbind m k).
Proof.
  intros Hm Hk w. unfold mbind. specialize (Hm w).
  destruct (m w) as [[a|e] w1]; simpl in *; [|exact Hm].
  now rewrite Hk.
Qed.

Lemma keeps_net_catch {A} (m : M A) (h : Error -> M A) :
  keeps_net m -> (forall e, keeps_net (h e)) -> keeps_net (try_catch m h).
Proof.
  intros Hm Hh w. unfold try_catch. specialize (Hm w).
  destruct (m w) as [[a|e] w1]; simpl in *; [exact Hm|].
  now rewrite Hh.
Qed.

Lemma keeps_net_write_chunks (cs : list string) : keeps_net (write_chunks cs).
Proof.
  induction cs as [|c cs IH]; simpl.
  - apply keeps_net_ret.
  - apply keeps_net_bind; [apply keeps_net_call | intros _; exact IH].
Qed.

Create HintDb net.

#[local] Hint Resolve keeps_net_ret keeps_net_throw keeps_net_await keeps_net_logger
  keeps_net_call keeps_net_write_chunks : net.

Ltac keeps :=
  repeat first
    [ apply keeps_net_bind; [|intro]
    | apply keeps_net_catch; [|intro]
    | solve [auto with net]
    | match goal with |- keeps_net (if ?b then _ else _) => destruct b end
    | match goal with |- keeps_net (match ?o with _ => _ end) => destruct o end ].

(** After its one call to [fetch], a forward makes no other. *)
Lemma forward_net {A} (rq : Fetch.t) (k : Upstream.t -> M A) (h : Error -> M A) (w : World) :
  (forall response, keeps_net (k response)) ->
  (forall e, keeps_net (h e)) ->
  net (snd (try_catch (mbind (do_fetch fetch rq) k) h w)) = net w ++ [rq].
Proof.
  intros Hk Hh. unfold try_catch, mbind, do_fetch.
  destruct (fetch rq) as [response|e]; simpl.
  - match goal with |- context [k response ?w0] =>
      pose proof (Hk response w0) as Hn; destruct (k response w0) as [[a|e] w1]
    end; simpl in *; [exact Hn | now rewrite Hh].
  - now rewrite Hh.
Qed.

Lemma handleNonStreamingRequest_net (body : Chat.t) (w : World) :
  net (snd (handleNonStreamingRequest fetch config body w))
  = net w ++ [chat_request config [] body].
Proof.
  unfold handleNonStreamingRequest. apply forward_net.
  - intros response. unfold relay_rejection. keeps.
  - intros e. keeps.
Qed.

Lemma handleStreamingRequest_net (body : Chat.t) (w : World) :
  net (snd (handleStreamingRequest fetch config body w))
  = net w ++ [chat_request config [("Accept", "text/event-stream")] body].
Proof.
  unfold handleStreamingRequest. apply forward_net.
  - intros response. unfold relay_rejection, pipe. keeps.
  - intros e. keeps.
Qed.

Lemma handle_catch_net (e : Error) : keeps_net (handle_catch e).
Proof. unfold handle_catch. keeps. Qed.

(** [handle], stage by stage. *)
Lemma handle_unfold (req : Req.t) (w : World) :
  handle fetch config req w
  = match transformRequest (Req.body req) with
    | Return transformed =>
        match forward fetch config (Req.body req) transformed
                (mkWorld (res w)
                         ((log w ++ [(Debug, ("Handling " ++ Req.method req
                                              ++ " request to " ++ Req.path req)%string)])
                          ++ [(Debug, "Transformed request body")])
                         (net w)) with
        | (Return handled, w') => (Return handled, w')
        | (Throw e, w') => handle_catch e w'
        end
    | Throw e =>
        handle_catch e
          (mkWorld (res w)
                   (log w ++ [(Debug, ("Handling " ++ Req.method req
                                       ++ " request to " ++ Req.path req)%string)])
                   (net w))
    end.
Proof.
  unfold handle, forward, handle_catch, try_catch, mbind, await, logger. simpl.
  destruct (transformRequest (Req.body req)) as [transformed|e]; simpl; [|reflexivity].
  destruct (Responses.stream (Req.body req)) as [[|]|]; reflexivity.
Qed.

(** X10: [handle] makes exactly one upstream call when the transformation
    returns: the POST to [<baseURL>/chat/completions] with the JSON content
    type, the bearer authorization header, the transformed body, and the
    [Accept: text/event-stream] header exactly when the request's [stream]
    is [true]; when the transformation raises it makes no upstream call. *)
Theorem handle_upstream_calls (req : Req.t) (w : World) :
  (forall transformed,
     transformRequest (Req.body req) = Return transformed ->
     net (snd (handle fetch config req w))
     = net w ++
       [Fetch.mk (baseURL (upstream config) ++ "/chat/completions")%string
                 "POST"
                 ([("Content-Type", "application/json");
                   (apiKeyHeader (upstream config),
                    ("Bearer " ++ apiKeyValue (upstream config))%string)]
                  ++ match Responses.stream (Req.body req) with
                     | Some true => [("Accept", "text/event-stream")]
                     | _ => []
                     end)
                 (Some transformed)
                 None])
  /\ (forall e,
        transformRequest (Req.body req) = Throw e ->
        net (snd (handle fetch config req w)) = net w).
Proof.
  rewrite handle_unfold. split.
  - intros transformed Ht. rewrite Ht.
    match goal with |- context [forward fetch config _ _ ?w0] =>
      assert (Hn : net (snd (forward fetch config (Req.body req) transformed w0))
                   = net w ++ [chat_request config
                                 match Responses.stream (Req.body req) with
                                 | Some true => [("Accept", "text/event-stream")]
                                 | _ => []
                                 end transformed])
        by (unfold forward; destruct (Responses.stream (Req.body req)) as [[|]|];
            first [rewrite handleStreamingRequest_net
                  | rewrite handleNonStreamingRequest_net]; reflexivity);
      destruct (forward fetch config (Req.body req) transformed w0) as [[b|e] w1]
    end; simpl in Hn |- *; [exact Hn|].
    rewrite handle_catch_net. exact Hn.
  - intros e He. rewrite He. now rewrite handle_catch_net.
Qed.

Lemma buffered_completion (body : Chat.t) (w : World) :
  res w = [] ->
  fst (handleNonStreamingRequest fetch config body w) = Return true /\
  List.length (filter completes (res (snd (handleNonStreamingRequest fetch config body w)))) = 1.
Proof.
  intros Hfresh. destruct w as [r l n]. simpl in Hfresh. subst r.
  unfold handleNonStreamingRequest, relay_rejection, try_catch, mbind, do_fetch,
    await, logger, call, ret, statusCode. simpl.
  destruct (fetch (chat_request config [] body)) as [response|e]; simpl; [|now split].
  destruct (Upstream.ok response); simpl.
  - destruct (Upstream.json response); simpl; now split.
  - destruct (Upstream.text response); simpl; [|now split].
    destruct (valid_status (Upstream.status response)); simpl; now split.
Qed.

Lemma streaming_completion (body : Chat.t) (w : World) :
  res w = [] ->
  let run := handleStreamingRequest fetch config body w in
  if fails_midstream (fetch (chat_request config [("Accept", "text/event-stream")] body))
  then fst run = Throw ERR_HTTP_HEADERS_SENT /\
       filter completes (res (snd run)) = [] /\
       headersSent (res (snd run)) = true
  else fst run = Return true /\
       List.length (filter completes (res (snd run))) = 1.
Proof.
  intros Hfresh run. subst run. destruct w as [r l n]. simpl in Hfresh. subst r.
  unfold handleStreamingRequest, try_catch, mbind, do_fetch, fails_midstream.
  destruct (fetch (chat_request config [("Accept", "text/event-stream")] body))
    as [response|e]; simpl; [|now split].
  destruct (Upstream.ok response); simpl.
  - destruct (Upstream.body response) as [stream|]; simpl; [|now split].
    rewrite pipe_trace by reflexivity. simpl.
    assert (Hwe : writableEnded (map res_write (chunks stream)) = false)
      by apply (writableEnded_writes []).
    assert (Hsc : statusCode
                    (res_setHeader "Content-Type" "text/event-stream"
                     :: res_setHeader "Cache-Control" "no-cache"
                     :: res_setHeader "Connection" "keep-alive"
                     :: map res_write (chunks stream)) = 200%Z)
      by exact (statusCode_writes
                  [res_setHeader "Content-Type" "text/event-stream";
                   res_setHeader "Cache-Control" "no-cache";
                   res_setHeader "Connection" "keep-alive"] (chunks stream)).
    destruct (failure stream) as [e|].
    + destruct (chunks stream) as [|c cs]; simpl; [now split|].
      rewrite filter_app, no_completion_in_writes. simpl.
      unfold headersSent. simpl. now repeat split.
    + rewrite Hwe, Hsc, orb_true_r. simpl.
      rewrite filter_app, no_completion_in_writes.
      destruct (chunks stream); now split.
  - unfold relay_rejection, mbind, await, logger, call, ret, statusCode. simpl.
    destruct (Upstream.text response); simpl; [|now split].
    destruct (valid_status (Upstream.status response)); simpl; now split.
Qed.

Lemma handle_catch_fresh (e : Error) (w : World) :
  res w = [] ->
  fst (handle_catch e w) = Return true /\
  List.length (filter completes (res (snd (handle_catch e w)))) = 1.
Proof.
  intros Hfresh. destruct w as [r l n]. simpl in Hfresh. subst r. now split.
Qed.

Lemma handle_catch_sent (e : Error) (w : World) :
  headersSent (res w) = true ->
  fst (handle_catch e w) = Throw ERR_HTTP_HEADERS_SENT /\
  res (snd (handle_catch e w)) = res w ++ [res_status 500].
Proof.
  intros Hs. unfold handle_catch, mbind, logger, call, ret. simpl.
  unfold headersSent in *. rewrite existsb_app, Hs. now split.
Qed.

(** What [handle] does, by whether the forward breaks after a chunk. *)
Lemma handle_cases (req : Req.t) (w : World) :
  res w = [] ->
  if breaks_midstream fetch config (Req.body req)
  then fst (handle fetch config req w) = Throw ERR_HTTP_HEADERS_SENT /\
       filter completes (res (snd (handle fetch config req w))) = []
  else fst (handle fetch config req w) = Return true /\
       List.length (filter completes (res (snd (handle fetch config req w)))) = 1.
Proof.
  intros Hfresh. rewrite handle_unfold. unfold breaks_midstream, forward.
  destruct (transformRequest (Req.body req)) as [transformed|e];
    [|now apply handle_catch_fresh].
  destruct (Responses.stream (Req.body req)) as [[|]|].
  - match goal with |- context [handleStreamingRequest fetch config transformed ?w0] =>
      pose proof (streaming_completion transformed w0 Hfresh) as Hs
    end.
    change (chat_request config [("Accept", "text/event-stream")] transformed)
      with (Fetch.mk (baseURL (upstream config) ++ "/chat/completions")%string
                     "POST"
                     [("Content-Type", "application/json");
                      (apiKeyHeader (upstream config),
                       ("Bearer " ++ apiKeyValue (upstream config))%string);
                      ("Accept", "text/event-stream")]
                     (Some transformed) None) in Hs.
    cbv zeta in Hs.
    destruct (fails_midstream _).
    + destruct Hs as [Ht [Hc Hsent]].
      destruct (handleStreamingRequest fetch config transformed _) as [[b|e] w1];
        simpl in *; [discriminate|].
      destruct (handle_catch_sent e w1 Hsent) as [Hf Hr].
      rewrite Hf, Hr, filter_app, Hc. now split.
    + destruct Hs as [Ht Hc].
      destruct (handleStreamingRequest fetch config transformed _) as [[b|e] w1];
        simpl in *; [|discriminate].
      injection Ht as ->. now split.
  - match goal with |- context [handleNonStreamingRequest fetch config transformed ?w0] =>
      destruct (buffered_completion transformed w0 Hfresh) as [Ht Hc];
      destruct (handleNonStreamingRequest fetch config transformed w0) as [[b|e] w1]
    end; simpl in *; [|discriminate]. injection Ht as ->. now split.
  - match goal with |- context [handleNonStreamingRequest fetch config transformed ?w0] =>
      destruct (buffered_completion transformed w0 Hfresh) as [Ht Hc];
      destruct (handleNonStreamingRequest fetch config transformed w0) as [[b|e] w1]
    end; simpl in *; [|discriminate]. injection Ht as ->. now split.
Qed.

(** X11: on a response nothing was written to yet, [handle] resolves to
    [true] and completes the response exactly once (exactly one [json],
    [send] or [end] takes effect), except when a streamed forward breaks
    after a chunk: then both [catch] blocks call [res.json] after the header
    block is out, [handle] rejects with that error, and no call completes
    the response. *)
Theorem handle_completion (req : Req.t) (w : World) :
  res w = [] ->
  (breaks_midstream fetch config (Req.body req) = true ->
   fst (handle fetch config req w)
   = Throw (mkError "Cannot set headers after they are sent to the client") /\
   filter completes (res (snd (handle fetch config req w))) = [])
  /\ (breaks_midstream fetch config (Req.body req) = false ->
      fst (handle fetch config req w) = Return true /\
      List.length (filter completes (res (snd (handle fetch config req w)))) = 1).
Proof.
  intros Hfresh. pose proof (handle_cases req w Hfresh) as H.
  destruct (breaks_midstream fetch config (Req.body req)).
  - split; [intros _; exact H | discriminate].
  - split; [discriminate | intros _; exact H].
Qed.

(** ** Properties of the health checks *)

Lemma plugin_health_returns (p : Plugin.t) (w : World) :
  exists w',
    plugin_health p w
    = (Return match fst (Plugin.checkHealth p w) with
              | Return b => b
              | Throw _ => false
              end, w').
Proof.
  unfold plugin_health, try_catch, mbind, logger, ret.
  destruct (Plugin.checkHealth p w) as [[b|e] w1]; simpl; eauto.
Qed.

Lemma all_health_returns (plugins : list Plugin.t) (w : World) :
  exists results w', all_health plugins w = (Return results, w').
Proof.
  revert w. induction plugins as [|p ps IH]; intros w; simpl.
  - unfold ret. eauto.
  - unfold mbind. destruct (plugin_health_returns p w) as [w1 ->].
    destruct (IH w1) as [results [w2 ->]]. unfold ret. eauto.
Qed.

(** When the verdict of each check does not depend on the state it starts
    in, the results are the verdicts, in registry order. *)
Lemma all_health_verdicts (plugins : list Plugin.t) (w0 : World) :
  (forall p, In p plugins ->
             forall w1 w2, fst (Plugin.checkHealth p w1) = fst (Plugin.checkHealth p w2)) ->
  forall w, exists w',
    all_health plugins w
    = (Return (map (fun p => match fst (Plugin.checkHealth p w0) with
                             | Return b => b
                             | Throw _ => false
                             end) plugins), w').
Proof.
  induction plugins as [|p ps IH]; intros Hind w; simpl.
  - unfold ret. eauto.
  - unfold mbind. destruct (plugin_health_returns p w) as [w1 ->].
    destruct (IH (fun q Hq => Hind q (or_intror Hq)) w1) as [w2 ->].
    unfold ret. rewrite (Hind p (or_introl eq_refl) w w0). eauto.
Qed.

Lemma some_verdict_true (plugins : list Plugin.t) (w0 : World) :
  existsb (fun result => Bool.eqb result true)
          (map (fun p => match fst (Plugin.checkHealth p w0) with
                         | Return b => b
                         | Throw _ => false
                         end) plugins) = true
  <-> Exists (fun p => fst (Plugin.checkHealth p w0) = Return true) plugins.
Proof.
  induction plugins as [|p ps IH]; simpl.
  - split; [discriminate | intros H; inversion H].
  - rewrite orb_true_iff, IH, Exists_cons.
    enough (Bool.eqb match fst (Plugin.checkHealth p w0) with
                     | Return b => b
                     | Throw _ => false
                     end true = true
            <-> fst (Plugin.checkHealth p w0) = Return true) as -> by reflexivity.
    destruct (fst (Plugin.checkHealth p w0)) as [[|]|e]; simpl;
      split; intros H; try reflexivity; discriminate.
Qed.

(** C8: the aggregate never rejects.  With one or more registered handlers
    whose checks settle independently of one another, it is [true] exactly
    when some handler's [checkHealth] resolves to [true]; a check that
    rejects counts as unhealthy.  With no handler it makes one call, the GET
    to [<baseURL><healthCheckPath>] with the authorization header and the
    configured timeout, and is [true] exactly when that call resolves with an
    ok response. *)
Theorem health_quorum (plugins : list Plugin.t) (w : World) :
  (forall p, In p plugins ->
             forall w1 w2, fst (Plugin.checkHealth p w1) = fst (Plugin.checkHealth p w2)) ->
  let probe :=
    Fetch.mk (baseURL (upstream config) ++ healthCheckPath (upstream config))%string
             "GET"
             [(apiKeyHeader (upstream config),
               ("Bearer " ++ apiKeyValue (upstream config))%string)]
             None
             (Some (healthCheck config)) in
  exists healthy w',
    checkUpstreamHealth fetch config plugins w = (Return healthy, w') /\
    (plugins <> [] ->
       (healthy = true <->
        Exists (fun p => fst (Plugin.checkHealth p w) = Return true) plugins)) /\
    (plugins = [] ->
       (healthy = true <->
          exists response,
            fetch probe = Return response /\ Upstream.ok response = true)
       /\ net w' = net w ++ [probe]).
Proof.
  intros Hind probe. destruct plugins as [|p ps].
  - assert (Hrq : health_request config = probe) by reflexivity.
    unfold checkUpstreamHealth, try_catch, mbind, do_fetch, logger, ret. rewrite Hrq.
    destruct (fetch probe) as [response|e] eqn:Hf; simpl.
    + eexists; eexists. split; [reflexivity|]. split; [congruence|].
      intros _. split; [|reflexivity]. split.
      * intros H. exists response. now split.
      * intros [r [Hr Hok]]. congruence.
    + eexists; eexists. split; [reflexivity|]. split; [congruence|].
      intros _. split; [|reflexivity].
      split; [discriminate|]. intros [r [Hr Hok]]. discriminate.
  - unfold checkUpstreamHealth, mbind.
    destruct (all_health_verdicts (p :: ps) w Hind w) as [w' ->].
    unfold ret. eexists; eexists. split; [reflexivity|].
    split; [|discriminate]. intros _. apply some_verdict_true.
Qed.

(** X16: the plugin's own health check never rejects: it makes one call,
    the GET to [<baseURL><healthCheckPath>] with the authorization header and
    the configured timeout, and is [true] exactly when that call resolves
    with an ok response; with the plugin as the only registered one, the
    health aggregate is that same check, call included. *)
Theorem plugin_health_check (w : World) :
  let probe :=
    Fetch.mk (baseURL (upstream config) ++ healthCheckPath (upstream config))%string
             "GET"
             [(apiKeyHeader (upstream config),
               ("Bearer " ++ apiKeyValue (upstream config))%string)]
             None
             (Some (healthCheck config)) in
  exists healthy w',
    checkHealth fetch config w = (Return healthy, w') /\
    (healthy = true <->
     exists response, fetch probe = Return response /\ Upstream.ok response = true) /\
    net w' = net w ++ [probe] /\
    res w' = res w /\
    checkUpstreamHealth fetch config [v1ResponsesPlugin fetch config] w
    = (Return healthy, w').
Proof.
  intros probe.
  assert (Hrq : health_request config = probe) by reflexivity.
  unfold checkUpstreamHealth, all_health, plugin_health, mbind, try_catch, ret.
  cbn [Plugin.checkHealth v1ResponsesPlugin].
  unfold checkHealth, try_catch, mbind, do_fetch, logger, ret. rewrite Hrq.
  destruct (fetch probe) as [response|e] eqn:Hf; simpl.
  - eexists; eexists. split; [reflexivity|]. repeat split.
    + intros H. exists response. now split.
    + intros [r [Hr Hok]]. congruence.
    + now destruct (Upstream.ok response).
  - eexists; eexists. split; [reflexivity|]. repeat split.
    + discriminate.
    + intros [r [Hr _]]. discriminate.
Qed.

Lemma checkUpstreamHealth_returns (plugins : list Plugin.t) (w : World) :
  exists healthy w', checkUpstreamHealth fetch config plugins w = (Return healthy, w').
Proof.
  destruct plugins as [|p ps].
  - unfold checkUpstreamHealth, try_catch, mbind, do_fetch, logger, ret. simpl.
    destruct (fetch (health_request config)); eauto.
  - unfold checkUpstreamHealth, mbind.
    destruct (all_health_returns (p :: ps) w) as [results [w' ->]].
    unfold ret. eauto.
Qed.

(** X17: the health aggregate of the [/healthz] route never rejects; when it
    is [true] and nothing was written to the response, the route answers
    200 with [{status: "ok", upstream: baseURL, plugins: [names]}], and when
    it is [false], 503 with [{status: "degraded", upstream: baseURL, reason:
    "Upstream server is not responding"}]; it resolves in both cases, so the
    500 branch is not taken. *)
Theorem healthz_status (plugins : list Plugin.t) (w : World) :
  (exists healthy checked,
     checkUpstreamHealth fetch config plugins w = (Return healthy, checked))
  /\ (forall healthy checked,
        checkUpstreamHealth fetch config plugins w = (Return healthy, checked) ->
        res checked = [] ->
        fst (healthz fetch config plugins w) = Return tt /\
        res (snd (healthz fetch config plugins w))
        = if healthy
          then [res_status 200;
                res_json
                  (JObj [("status", JStr "ok");
                         ("upstream", JStr (baseURL (upstream config)));
                         ("plugins", JArr (map (fun p => JStr (Plugin.name p)) plugins))])]
          else [res_status 503;
                res_json
                  (JObj [("status", JStr "degraded");
                         ("upstream", JStr (baseURL (upstream config)));
                         ("reason", JStr "Upstream server is not responding")])]).
Proof.
  split; [apply checkUpstreamHealth_returns|].
  intros healthy checked Hc Hfresh.
  unfold healthz, try_catch, mbind. rewrite Hc.
  destruct checked as [r l n]. simpl in Hfresh. subst r.
  destruct healthy; simpl; now split.
Qed.

(** ** Routing to the plugin *)

Lemma v1_canHandle (req : Req.t) :
  Plugin.canHandle (v1ResponsesPlugin fetch config) req = true <->
  Req.method req = "POST" /\ Req.path req = "/v1/responses".
Proof.
  simpl. unfold canHandle, v1_pathPattern.
  rewrite andb_true_iff, !String.eqb_eq. tauto.
Qed.

(** X15: routing with the plugin as the only registered one, on a response
    nothing was written to yet ([req.path] is the path the router sees).  A
    request is answered by the plugin exactly when its method is [POST], its
    path is [/v1/responses] and its forward does not break after a chunk; a
    request with another method or path is passed on with the response
    untouched and no upstream call; a request whose streamed forward breaks
    after a chunk is passed on to the generic proxy as well. *)
Theorem dispatch_v1 (req : Req.t) (w : World) :
  res w = [] ->
  exists routed w',
    plugin_middleware (register [] (v1ResponsesPlugin fetch config)) req w
    = (Return routed, w') /\
    (routed = Handled <->
     Req.method req = "POST" /\ Req.path req = "/v1/responses" /\
     breaks_midstream fetch config (Req.body req) = false) /\
    (~ (Req.method req = "POST" /\ Req.path req = "/v1/responses") ->
     res w' = res w /\ net w' = net w).
Proof.
  intros Hfresh.
  assert (Hfind : findHandler (register [] (v1ResponsesPlugin fetch config)) req
                  = if Plugin.canHandle (v1ResponsesPlugin fetch config) req
                    then Some (v1ResponsesPlugin fetch config) else None)
    by reflexivity.
  unfold plugin_middleware. rewrite Hfind. clear Hfind.
  unfold mbind, try_catch, logger, ret.
  destruct (Plugin.canHandle (v1ResponsesPlugin fetch config) req) eqn:Hc.
  - pose proof (proj1 (v1_canHandle req) Hc) as [Hm Hp].
    cbn [Plugin.handle v1ResponsesPlugin].
    match goal with |- context [handle fetch config req ?w0] =>
      pose proof (handle_cases req w0 Hfresh) as Hh;
      destruct (handle fetch config req w0) as [[b|e] w1]
    end.
    + destruct (breaks_midstream fetch config (Req.body req));
        destruct Hh as [Ht _]; simpl in Ht; [discriminate|].
      injection Ht as ->. eexists; eexists. split; [reflexivity|].
      split; [tauto | intros Hn; tauto].
    + destruct (breaks_midstream fetch config (Req.body req));
        destruct Hh as [Ht _]; simpl in Ht; [|discriminate].
      eexists; eexists. split; [reflexivity|].
      split; [|intros Hn; tauto].
      split; [discriminate | intros [_ [_ H]]; discriminate].
  - eexists; eexists. split; [reflexivity|]. split.
    + split; [discriminate|]. intros [Hm [Hp _]].
      assert (Plugin.canHandle (v1ResponsesPlugin fetch config) req = true)
        by (apply v1_canHandle; now split).
      congruence.
    + intros _. now split.
Qed.

End HandlerProperties.

Lemma buffered_forward_failures_witness :
  (fst (handleNonStreamingRequest fetch_bad_request test_config (chat_of [user_hello]) empty_world)
   = Return true /\
   res (snd (handleNonStreamingRequest fetch_bad_request test_config (chat_of [user_hello]) empty_world))
   = [res_status 400; res_send "Bad request"])
  /\ (fst (handleNonStreamingRequest fetch_network_error test_config (chat_of [user_hello]) empty_world)
      = Return true /\
      res (snd (handleNonStreamingRequest fetch_network_error test_config (chat_of [user_hello]) empty_world))
      = [res_status 502;
         res_json (JObj [("error", JStr "Error forwarding request: Network error")])]).
Proof.
  split.
  - apply (proj1 (buffered_forward_failures fetch_bad_request test_config
                    (chat_of [user_hello]) empty_world eq_refl)
                 bad_request_response "Bad request");
      [reflexivity | reflexivity | simpl; lia | reflexivity].
  - apply (proj2 (buffered_forward_failures fetch_network_error test_config
                    (chat_of [user_hello]) empty_world eq_refl)
                 (mkError "Network error")).
    reflexivity.
Defined.

Lemma health_quorum_witness :
  exists healthy w',
    checkUpstreamHealth fetch_network_error test_config
      [healthy_plugin; broken_plugin] empty_world = (Return healthy, w') /\
    ([healthy_plugin; broken_plugin] <> [] ->
       (healthy = true <->
        Exists (fun p => fst (Plugin.checkHealth p empty_world) = Return true)
               [healthy_plugin; broken_plugin])) /\
    ([healthy_plugin; broken_plugin] = [] ->
       (healthy = true <->
          exists response,
            fetch_network_error
              (Fetch.mk "http://localhost:1234/v1/models" "GET"
                        [("Authorization", "Bearer ")] None (Some 5000%Z))
            = Return response /\ Upstream.ok response = true)
       /\ net w' = net empty_world ++
                   [Fetch.mk "http://localhost:1234/v1/models" "GET"
                             [("Authorization", "Bearer ")] None (Some 5000%Z)]).
Proof.
  apply (health_quorum fetch_network_error test_config
           [healthy_plugin; broken_plugin] empty_world).
  intros p [<- | [<- | []]] w1 w2; reflexivity.
Defined.

(** C9: [handle] does not resolve to [true] on every path.  For a streaming
    request whose upstream body yields a chunk and then fails, the [catch]
    of the streaming handler calls [res.status(502).json(...)] after the
    header block is out, [res.json] throws, the [catch] of [handle] calls
    [res.status(500).json(...)], which throws again, and [handle] rejects;
    the router then passes the request on to the generic proxy. *)
Theorem handle_rejects_midstream :
  fst (handle (fetch_ok JNull (Some broken_stream)) test_config streaming_req empty_world)
  = Throw (mkError "Cannot set headers after they are sent to the client")
  /\ res (snd (handle (fetch_ok JNull (Some broken_stream)) test_config
                 streaming_req empty_world))
     = [res_setHeader "Content-Type" "text/event-stream";
        res_setHeader "Cache-Control" "no-cache";
        res_setHeader "Connection" "keep-alive";
        res_write "data: {}";
        res_status 502;
        res_status 500]
  /\ fst (plugin_middleware
            [v1ResponsesPlugin (fetch_ok JNull (Some broken_stream)) test_config]
            streaming_req empty_world)
     = Return PassedOn.
Proof. repeat split. Qed.

Lemma streaming_relay_trace_witness :
  fst (handleStreamingRequest (fetch_ok JNull (Some broken_stream)) test_config
         (chat_of [user_hello]) empty_world)
  = Throw (mkError "Cannot set headers after they are sent to the client")
  /\ res (snd (handleStreamingRequest (fetch_ok JNull (Some broken_stream)) test_config
                 (chat_of [user_hello]) empty_world))
     = [res_setHeader "Content-Type" "text/event-stream";
        res_setHeader "Cache-Control" "no-cache";
        res_setHeader "Connection" "keep-alive";
        res_write "data: {}";
        res_status 502].
Proof.
  apply (proj2 (proj2 (streaming_relay_trace (fetch_ok JNull (Some broken_stream))
                         test_config (chat_of [user_hello]) empty_world
                         (ok_response JNull (Some broken_stream)) broken_stream
                         eq_refl eq_refl eq_refl eq_refl))
               (mkError "socket hang up"));
    [reflexivity | discriminate].
Defined.

Lemma streaming_forward_failures_witness :
  fst (handleStreamingRequest fetch_bad_request test_config (chat_of [user_hello]) empty_world)
  = Return true
  /\ res (snd (handleStreamingRequest fetch_bad_request test_config
                 (chat_of [user_hello]) empty_world))
     = [res_status 400; res_send "Bad request"].
Proof.
  apply (proj1 (proj2 (streaming_forward_failures fetch_bad_request test_config
                         (chat_of [user_hello]) empty_world eq_refl))
               bad_request_response "Bad request");
    [reflexivity | reflexivity | simpl; lia | reflexivity].
Defined.

Lemma buffered_forward_bodies_witness :
  fst (handleNonStreamingRequest (fetch_ok (JObj [("id", JStr "c1")]) None) test_config
         (chat_of [user_hello]) empty_world) = Return true
  /\ res (snd (handleNonStreamingRequest (fetch_ok (JObj [("id", JStr "c1")]) None)
                 test_config (chat_of [user_hello]) empty_world))
     = [res_json (JObj [("id", JStr "c1")])].
Proof.
  apply (proj1 (buffered_forward_bodies (fetch_ok (JObj [("id", JStr "c1")]) None)
                  test_config (chat_of [user_hello]) empty_world
                  (ok_response (JObj [("id", JStr "c1")]) None) eq_refl eq_refl));
    reflexivity.
Defined.

Lemma handle_completion_witness :
  (fst (handle (fetch_ok JNull (Some broken_stream)) test_config streaming_req empty_world)
   = Throw (mkError "Cannot set headers after they are sent to the client") /\
   filter completes
     (res (snd (handle (fetch_ok JNull (Some broken_stream)) test_config
                  streaming_req empty_world))) = [])
  /\ (fst (handle fetch_stream test_config streaming_req empty_world) = Return true /\
      List.length
        (filter completes
           (res (snd (handle fetch_stream test_config streaming_req empty_world)))) = 1).
Proof.
  split.
  - apply (proj1 (handle_completion (fetch_ok JNull (Some broken_stream)) test_config
                    streaming_req empty_world eq_refl)).
    reflexivity.
  - apply (proj2 (handle_completion fetch_stream test_config
                    streaming_req empty_world eq_refl)).
    reflexivity.
Defined.

Lemma dispatch_v1_witness :
  exists routed w',
    plugin_middleware (register [] (v1ResponsesPlugin fetch_bad_request test_config))
      hello_req empty_world = (Return routed, w') /\
    (routed = Handled <->
     Req.method hello_req = "POST" /\ Req.path hello_req = "/v1/responses" /\
     breaks_midstream fetch_bad_request test_config (Req.body hello_req) = false) /\
    (~ (Req.method hello_req = "POST" /\ Req.path hello_req = "/v1/responses") ->
     res w' = res empty_world /\ net w' = net empty_world).
Proof.
  apply (dispatch_v1 fetch_bad_request test_config hello_req empty_world).
  reflexivity.
Defined.

(** X20: when the transformation of the request body throws, [handle]
    makes no upstream call, answers a fresh response with status 500 and the
    body [{error: {message: "Error handling request: " + the error's
    message, type: "proxy_error"}}], and resolves to [true]. *)
Theorem handle_transform_failure (fetch : Fetch.t -> Completion Upstream.t)
    (config : ProxyConfig) (req : Req.t) (w : World) (e : Error) :
  res w = [] ->
  transformRequest (Req.body req) = Throw e ->
  fst (handle fetch config req w) = Return true
  /\ res (snd (handle fetch config req w))
     = [res_status 500;
        res_json (JObj [("error",
                         JObj [("message",
                                JStr ("Error handling request: " ++ message e));
                               ("type", JStr "proxy_error")])])]
  /\ net (snd (handle fetch config req w)) = net w.
Proof.
  intros Hfresh Ht. rewrite handle_unfold, Ht.
  destruct w as [r l n]. simpl in Hfresh. subst r. repeat split.
Qed.

Lemma handle_transform_failure_witness :
  fst (handle fetch_stream test_config
         (Req.mk "POST" "/v1/responses" (request_of None (JArr [JNull]))) empty_world)
  = Return true
  /\ res (snd (handle fetch_stream test_config
                 (Req.mk "POST" "/v1/responses" (request_of None (JArr [JNull])))
                 empty_world))
     = [res_status 500;
        res_json
          (JObj [("error",
                  JObj [("message",
                         JStr "Error handling request: Cannot read properties of null (reading 'role')");
                        ("type", JStr "proxy_error")])])]
  /\ net (snd (handle fetch_stream test_config
                 (Req.mk "POST" "/v1/responses" (request_of None (JArr [JNull])))
                 empty_world)) = net empty_world.
Proof.
  apply (handle_transform_failure fetch_stream test_config
           (Req.mk "POST" "/v1/responses" (request_of None (JArr [JNull])))
           empty_world
           (mkError "Cannot read properties of null (reading 'role')"));
    reflexivity.
Defined.

(** The scenarios of the contract tests. *)

Example streaming_relay :
  handle fetch_stream test_config streaming_req empty_world
  = (Return true,
     mkWorld [res_setHeader "Content-Type" "text/event-stream";
              res_setHeader "Cache-Control" "no-cache";
              res_setHeader "Connection" "keep-alive";
              res_write "data: {}"; res_write "data: [DONE]"; res_end]
             [(Debug, "Handling POST request to /v1/responses");
              (Debug, "Transformed request body")]
             [Fetch.mk "http://localhost:1234/v1/chat/completions" "POST"
                       [("Content-Type", "application/json");
                        ("Authorization", "Bearer ");
                        ("Accept", "text/event-stream")]
                       (Some (Chat.mk "gpt-4" [user_hello] (JNum 0.7%float)
                                      (JNum (-1)%float) true None None))
                       None]).
Proof. reflexivity. Qed.

Example health_no_handler_probe_fails :
  fst (checkUpstreamHealth fetch_network_error test_config [] empty_world) = Return false.
Proof. reflexivity. Qed.

Example health_any_quorum :
  fst (checkUpstreamHealth fetch_network_error test_config
         [healthy_plugin; broken_plugin] empty_world) = Return true.
Proof. reflexivity. Qed.

(** ** The configuration merge *)

Lemma strip_trailing_slash_one (s : string) :
  strip_trailing_slash (s ++ "/") = s.
Proof.
  induction s as [|c s IH]; simpl; [reflexivity|].
  rewrite IH. destruct s; reflexivity.
Qed.

Lemma strip_trailing_slash_none (s : string) :
  (forall t, s <> (t ++ "/")%string) -> strip_trailing_slash s = s.
Proof.
  induction s as [|c s IH]; intros Hn; simpl; [reflexivity|].
  destruct s as [|d s].
  - destruct (Ascii.eqb c "/") eqn:Hc; [|reflexivity].
    apply Ascii.eqb_eq in Hc. subst c. exfalso. now apply (Hn "").
  - f_equal. apply IH. intros t Ht. apply (Hn (String c t)). simpl. now rewrite Ht.
Qed.

(** X18: in the merged configuration every setting of the [upstream] and
    [logging] groups is present and is decided by its environment variable
    alone, whatever the configuration file and the defaults hold: it is the
    variable's text when the variable is set and not empty, and [undefined]
    when it is unset or empty; for the base URL the text is taken without
    one slash at its end. *)
Theorem env_group_always_wins (file : option Group) (env : Env) :
  let setting (variable : string) : option JsVal :=
    Some match env variable with
         | Some s => if (s =? "")%string then JUndefined else JStr s
         | None => JUndefined
         end in
  getConfig_upstream file env "apiKeyHeader" = setting "OPENAI_API_KEY_HEADER"
  /\ getConfig_upstream file env "apiKeyValue" = setting "OPENAI_API_KEY"
  /\ getConfig_upstream file env "healthCheckPath" = setting "OPENAI_HEALTH_CHECK_PATH"
  /\ getConfig_logging file env "level" = setting "LOG_LEVEL"
  /\ getConfig_logging file env "format" = setting "LOG_FORMAT"
  /\ (env "OPENAI_UPSTREAM_BASE_URL" = None ->
      getConfig_upstream file env "baseURL" = Some JUndefined)
  /\ (forall s,
        env "OPENAI_UPSTREAM_BASE_URL" = Some (s ++ "/")%string ->
        getConfig_upstream file env "baseURL"
        = Some (if (s =? "")%string then JUndefined else JStr s))
  /\ (forall s,
        env "OPENAI_UPSTREAM_BASE_URL" = Some s ->
        (forall t, s <> (t ++ "/")%string) ->
        getConfig_upstream file env "baseURL"
        = Some (if (s =? "")%string then JUndefined else JStr s)).
Proof.
  intros setting. subst setting.
  unfold getConfig_upstream, getConfig_logging, merge_group, spread,
    loadFromEnv_upstream, loadFromEnv_logging, with_prop, or_undefined. simpl.
  repeat split.
  - now intros ->.
  - intros s ->. simpl. now rewrite strip_trailing_slash_one.
  - intros s -> Hn. simpl. now rewrite (strip_trailing_slash_none _ Hn).
Qed.

(** X19: a value of the configuration file's [upstream] group reaches the
    merged group only under a key other than the four settings: under each
    of the four the merged value is the same whatever the file holds, and
    under every other key it is the file's (absent when the file has none). *)
Theorem file_group_reach (file : Group) (env : Env) (k : string) :
  (In k ["baseURL"; "apiKeyHeader"; "apiKeyValue"; "healthCheckPath"] ->
   forall other : option Group,
     getConfig_upstream (Some file) env k = getConfig_upstream other env k)
  /\ (~ In k ["baseURL"; "apiKeyHeader"; "apiKeyValue"; "healthCheckPath"] ->
      getConfig_upstream (Some file) env k = file k).
Proof.
  unfold getConfig_upstream, merge_group, spread, loadFromEnv_upstream,
    defaultConfig_upstream, with_prop, empty_group.
  split.
  - intros Hin other. simpl in Hin.
    destruct Hin as [<- | [<- | [<- | [<- | []]]]]; reflexivity.
  - intros Hn. simpl in Hn.
    destruct (k =? "baseURL")%string eqn:H1;
      [apply String.eqb_eq in H1; subst; tauto|].
    destruct (k =? "apiKeyHeader")%string eqn:H2;
      [apply String.eqb_eq in H2; subst; tauto|].
    destruct (k =? "apiKeyValue")%string eqn:H3;
      [apply String.eqb_eq in H3; subst; tauto|].
    destruct (k =? "healthCheckPath")%string eqn:H4;
      [apply String.eqb_eq in H4; subst; tauto|].
    now destruct (file k).
Qed.

(** The file's base URL and key are lost when their variables are unset or
    set; an extra key of the file is kept. *)
Example file_upstream_ignored :
  getConfig_upstream (Some file_upstream) url_env "baseURL" = Some (JStr "http://up/v1")
  /\ getConfig_upstream (Some file_upstream) url_env "apiKeyValue" = Some JUndefined
  /\ getConfig_upstream (Some file_upstream) url_env "organization" = Some (JStr "org-1").
Proof. repeat split. Qed.
